(** * ctSESAM PasswordSettingsManager: a shallow embedding and its properties

    The development follows [PasswordSettingsManager.py].  The manager keeps
    a Python list of [PasswordSetting] objects ([self.settings]) and the last
    decoded remote payload ([self.remote_data]); every method is embedded as
    a computation over that state which either returns or raises.

    Layout:
    - [Datetime]: the part of Python's [datetime] the manager relies on
      (comparison, [strptime] and [strftime] for ["%Y-%m-%dT%H:%M:%S"]);
    - the collaborators [PasswordSetting], [Crypter], [Packer], [json] and
      [base64], which are not part of the manager's file;
    - the manager's methods, loop by loop;
    - closed forms of the loops, and the properties of the methods. *)

From Stdlib Require Import Ascii String ZArith Lia.
From stdpp Require Import base list strings.

Open Scope string_scope.
Open Scope list_scope.
Open Scope nat_scope.

(** ** Python's [datetime] *)

Module Datetime.

Local Open Scope Z_scope.

(** A naive [datetime] object: the seven fields Python compares. *)
Record datetime := mk_datetime {
  year : Z; month : Z; day : Z;
  hour : Z; minute : Z; second : Z;
  microsecond : Z
}.

Definition lex (c1 c2 : comparison) : comparison :=
  match c1 with Eq => c2 | _ => c1 end.

(** [datetime._cmp]: lexicographic comparison of the fields. *)
Definition cmp (a b : datetime) : comparison :=
  lex (year a ?= year b)
 (lex (month a ?= month b)
 (lex (day a ?= day b)
 (lex (hour a ?= hour b)
 (lex (minute a ?= minute b)
 (lex (second a ?= second b)
      (microsecond a ?= microsecond b)))))).

(** [a > b] and [a >= b] on datetimes. *)
Definition gt (a b : datetime) : bool :=
  match cmp a b with Gt => true | _ => false end.

Definition ge (a b : datetime) : bool :=
  match cmp a b with Lt => false | _ => true end.

Definition is_leap (y : Z) : bool :=
  (y mod 4 =? 0) && (negb (y mod 100 =? 0) || (y mod 400 =? 0)).

Definition days_in_month (y m : Z) : Z :=
  match m with
  | 2 => if is_leap y then 29 else 28
  | 4 | 6 | 9 | 11 => 30
  | _ => 31
  end.

(** The values the [datetime] constructor accepts. *)
Definition valid (t : datetime) : bool :=
  (1 <=? year t) && (year t <=? 9999) &&
  (1 <=? month t) && (month t <=? 12) &&
  (1 <=? day t) && (day t <=? days_in_month (year t) (month t)) &&
  (0 <=? hour t) && (hour t <=? 23) &&
  (0 <=? minute t) && (minute t <=? 59) &&
  (0 <=? second t) && (second t <=? 59) &&
  (0 <=? microsecond t) && (microsecond t <=? 999999).

(** What survives formatting with seconds precision. *)
Definition truncate (t : datetime) : datetime :=
  mk_datetime (year t) (month t) (day t) (hour t) (minute t) (second t) 0.

(** *** Parsing with the format ["%Y-%m-%dT%H:%M:%S"]

    [strptime] compiles the format to a regular expression: [%Y] is four
    digits, every other directive one or two digits within its range, the
    literals match themselves (letters without regard to case), and the
    whole string must be consumed.  Between literals that are not digits
    this is: read the maximal run of digits, check its length and its
    value.  The model reads ASCII digits only. *)

Definition digit_of (c : ascii) : option Z :=
  let n := Z.of_N (N_of_ascii c) in
  if (48 <=? n) && (n <=? 57) then Some (n - 48) else None.

(** The maximal run of leading digits, and the rest of the string. *)
Fixpoint take_digits (s : string) : list Z * string :=
  match s with
  | EmptyString => ([], EmptyString)
  | String c r =>
      match digit_of c with
      | Some d => let '(ds, r') := take_digits r in (d :: ds, r')
      | None => ([], s)
      end
  end.

Definition number (ds : list Z) : Z :=
  fold_left (fun acc d => 10 * acc + d) ds 0.

(** A numeric directive: between [lo_len] and [hi_len] digits. *)
Definition directive (lo_len hi_len : nat) (s : string) : option (Z * string) :=
  let '(ds, r) := take_digits s in
  if ((lo_len <=? length ds) && (length ds <=? hi_len))%nat
  then Some (number ds, r) else None.

(** A literal character of the format; [alt] is its other letter case. *)
Definition literal (c alt : ascii) (s : string) : option string :=
  match s with
  | String c' r => if (Ascii.eqb c' c || Ascii.eqb c' alt)%bool then Some r else None
  | EmptyString => None
  end.

Definition opt_bind {A B} (o : option A) (k : A -> option B) : option B :=
  match o with Some a => k a | None => None end.

(** [datetime.strptime(s, "%Y-%m-%dT%H:%M:%S")]; [None] is [ValueError]. *)
Definition strptime (s : string) : option datetime :=
  opt_bind (directive 4 4 s) (fun '(y, s) =>
  opt_bind (literal "-" "-" s) (fun s =>
  opt_bind (directive 1 2 s) (fun '(mo, s) =>
  opt_bind (literal "-" "-" s) (fun s =>
  opt_bind (directive 1 2 s) (fun '(d, s) =>
  opt_bind (literal "T" "t" s) (fun s =>
  opt_bind (directive 1 2 s) (fun '(h, s) =>
  opt_bind (literal ":" ":" s) (fun s =>
  opt_bind (directive 1 2 s) (fun '(mi, s) =>
  opt_bind (literal ":" ":" s) (fun s =>
  opt_bind (directive 1 2 s) (fun '(se, s) =>
  match s with
  | EmptyString =>
      let t := mk_datetime y mo d h mi se 0 in
      if valid t then Some t else None
  | _ => None
  end))))))))))).

(** *** Formatting with the same format *)

Definition digit_char (d : Z) : ascii := ascii_of_N (Z.to_N (48 + d)).

Definition pad2 (n : Z) : string :=
  String (digit_char (n / 10 mod 10)) (String (digit_char (n mod 10)) EmptyString).

Definition pad4 (n : Z) : string :=
  String (digit_char (n / 1000 mod 10)) (String (digit_char (n / 100 mod 10)) (pad2 n)).

(** [t.strftime("%Y-%m-%dT%H:%M:%S")], the year zero-padded to four digits. *)
Definition strftime (t : datetime) : string :=
  (pad4 (year t) ++ "-" ++ pad2 (month t) ++ "-" ++ pad2 (day t) ++ "T" ++
   pad2 (hour t) ++ ":" ++ pad2 (minute t) ++ ":" ++ pad2 (second t))%string.

End Datetime.

Import Datetime.

(** ** Exceptions and results *)

Inductive exn := ValueError | TypeError | DecryptionError | FormatError.

(** The outcome of a Python expression: a value, or a raised exception. *)
Inductive result (A : Type) : Type :=
| Returns (a : A)
| Raises (e : exn).
Arguments Returns {A} a.
Arguments Raises {A} e.

#[global] Instance result_ret : MRet result := fun A a => Returns a.
#[global] Instance result_bind : MBind result := fun A B k r =>
  match r with Returns a => k a | Raises e => Raises e end.

(** ** Dictionaries exchanged with the codecs

    A record-data dictionary has the keys ['domain'] and ['mDate'], may have
    ['deleted'], and carries the remaining key/value pairs, which the manager
    never inspects.  [V] is the type of the ['mDate'] value: a string in a
    decoded JSON document, any Python value in a dictionary built in
    memory. *)

Definition fields := list (string * string).

Record dict (V : Type) : Type := mk_dict {
  domain : string;
  mDate : V;
  deleted : option bool;
  others : fields
}.
Arguments mk_dict {V} _ _ _ _.
Arguments domain {V} _.
Arguments mDate {V} _.
Arguments deleted {V} _.
Arguments others {V} _.

(** ['deleted' in data_set and data_set['deleted']] *)
Definition is_deleted {V} (d : dict V) : bool :=
  match deleted d with Some true => true | _ => false end.

(** The Python values an ['mDate'] key is bound to in this program. *)
Inductive pyval := PyStr (s : string) | PyDatetime (t : datetime).

(** A decoded dictionary seen as a Python dictionary. *)
Definition of_json (d : dict string) : dict pyval :=
  mk_dict (domain d) (PyStr (mDate d)) (deleted d) (others d).

(** [datetime.strptime(v, "%Y-%m-%dT%H:%M:%S")] as an expression that may
    raise: [ValueError] on a string that does not match, [TypeError] on an
    argument that is not a string. *)
Definition parse (s : string) : result datetime :=
  match strptime s with Some t => Returns t | None => Raises ValueError end.

Definition parse_value (v : pyval) : result datetime :=
  match v with PyStr s => parse s | PyDatetime _ => Raises TypeError end.

(** ** The class [PasswordSetting] *)

(** Modelled from the spec: the class [PasswordSetting] lives in
    PasswordSetting.py, which is not among the sources.  A Record has a
    domain, a modification time, a synced flag and opaque policy fields. *)
Record PasswordSetting := mk_setting {
  get_domain : string;
  get_m_date : datetime;
  is_synced : bool;
  get_fields : fields
}.

(** Modelled from the spec: the constructor [PasswordSetting(domain)], absent
    from the sources; a new Record has a default state.  [now] is the clock
    reading at construction. *)
Definition new_PasswordSetting (dom : string) (now : datetime) : PasswordSetting :=
  mk_setting dom now false [].

(** Modelled from the spec: [PasswordSetting.set_synced], absent from the
    sources. *)
Definition set_synced (s : PasswordSetting) (b : bool) : PasswordSetting :=
  mk_setting (get_domain s) (get_m_date s) b (get_fields s).

(** Modelled from the spec: [PasswordSetting.to_dict], absent from the
    sources (RecordCodec [toData]): the record data of a live record, its
    modification time as an ISO-8601 string of seconds precision. *)
Definition to_dict (s : PasswordSetting) : dict pyval :=
  mk_dict (get_domain s) (PyStr (strftime (get_m_date s))) None (get_fields s).

(** Modelled from the spec: [PasswordSetting.load_from_dict], absent from the
    sources (RecordCodec [applyData]): an in-place overwrite of the fields
    from the record data that preserves the domain.  The synced flag is not
    part of the record data. *)
Definition load_from_dict (s : PasswordSetting) (d : dict string) : result PasswordSetting :=
  t ← parse (mDate d);
  mret (mk_setting (get_domain s) t (is_synced s) (others d)).

(** ** Serialization, compression, encryption *)

(** A JSON document of one of the two shapes this program writes: the bare
    array of an export blob, or the object of the settings file. *)
Inductive json_doc :=
| JArray (entries : list (dict string))
| JObject (saved : list (dict string)) (synced : list string).

(** Byte strings, symbolically: each codec step is a constructor, and
    [Noise] stands for bytes no codec step produced. *)
Inductive bytes :=
| Noise (n : nat)
| Utf8 (doc : json_doc)
| Packed (b : bytes)
| Sealed (password : string) (b : bytes)
| Base64 (b : bytes).

(** [json.dumps] of a dictionary: a [datetime] value is not serializable. *)
Definition dump_dict (d : dict pyval) : result (dict string) :=
  match mDate d with
  | PyStr s => Returns (mk_dict (domain d) s (deleted d) (others d))
  | PyDatetime _ => Raises TypeError
  end.

Fixpoint dump_list (l : list (dict pyval)) : result (list (dict string)) :=
  match l with
  | [] => Returns []
  | d :: r => j ← dump_dict d; js ← dump_list r; mret (j :: js)
  end.

(** [json.dumps(settings_list)] for a list of dictionaries. *)
Definition json_dumps (l : list (dict pyval)) : result bytes :=
  js ← dump_list l; mret (Utf8 (JArray js)).

(** [json.loads(str(b, encoding='utf-8'))] *)
Definition json_loads (b : bytes) : result json_doc :=
  match b with Utf8 doc => Returns doc | _ => Raises ValueError end.

(** Modelled from the spec: [Packer.compress], absent from the sources
    (SecureCodec). *)
Definition compress (b : bytes) : bytes := Packed b.

(** Modelled from the spec: [Packer.decompress], absent from the sources;
    it undoes [compress] and fails on anything else. *)
Definition decompress (b : bytes) : result bytes :=
  match b with Packed b' => Returns b' | _ => Raises FormatError end.

(** Modelled from the spec: [Crypter(password).encrypt], absent from the
    sources (SecureCodec). *)
Definition encrypt (password : string) (b : bytes) : bytes := Sealed password b.

(** Modelled from the spec: [Crypter(password).decrypt], absent from the
    sources; it fails with a DecryptionError on a wrong key or on input that
    is not a ciphertext. *)
Definition decrypt (password : string) (b : bytes) : result bytes :=
  match b with
  | Sealed password' b' =>
      if String.eqb password password' then Returns b' else Raises DecryptionError
  | _ => Raises DecryptionError
  end.

(** [base64.b64encode] and [base64.b64decode] *)
Definition b64encode (b : bytes) : bytes := Base64 b.

Definition b64decode (b : bytes) : result bytes :=
  match b with Base64 b' => Returns b' | _ => Raises ValueError end.

(** ** The manager's state and its computations *)

(** The attributes of a [PasswordSettingsManager] object.  The settings file
    is an input of the methods that read it. *)
Record manager := mk_manager {
  settings : list PasswordSetting;
  remote_data : option json_doc
}.

(** [__init__]: no settings, no remote data. *)
Definition init : manager := mk_manager [] None.

(** A method body: it runs on the object's state, changes it, and returns or
    raises.  The state reached when an exception is raised is kept. *)
Definition M (A : Type) : Type := manager -> result A * manager.

#[global] Instance M_ret : MRet M := fun A a m => (Returns a, m).
#[global] Instance M_bind : MBind M := fun A B k c m =>
  match c m with
  | (Returns a, m') => k a m'
  | (Raises e, m') => (Raises e, m')
  end.

Definition lift {A} (r : result A) : M A := fun m => (r, m).
Definition raise {A} (e : exn) : M A := lift (Raises e).

Definition read_settings : M (list PasswordSetting) :=
  fun m => (Returns (settings m), m).
Definition write_settings (l : list PasswordSetting) : M unit :=
  fun m => (Returns tt, mk_manager l (remote_data m)).
Definition read_remote_data : M (option json_doc) :=
  fun m => (Returns (remote_data m), m).
Definition write_remote_data (r : option json_doc) : M unit :=
  fun m => (Returns tt, mk_manager (settings m) r).

(** [self.settings.append(s)], [self.settings.pop(i)], and the in-place
    update of the object at index [i]. *)
Definition append (s : PasswordSetting) : M unit :=
  l ← read_settings; write_settings (l ++ [s]).
Definition pop (i : nat) : M unit :=
  l ← read_settings; write_settings (delete i l).
Definition store (i : nat) (s : PasswordSetting) : M unit :=
  l ← read_settings; write_settings (<[i:=s]> l).

Definition same_domain (s : PasswordSetting) (dom : string) : bool :=
  String.eqb (get_domain s) dom.

(** ** [get_setting], [save_setting], [delete_setting] *)

(** [get_setting]: the first setting of the domain, or a new one, appended. *)
Definition get_setting (dom : string) (now : datetime) : M PasswordSetting :=
  l ← read_settings;
  match List.find (fun s => same_domain s dom) l with
  | Some setting => mret setting
  | None =>
      let setting := new_PasswordSetting dom now in
      append setting;; mret setting
  end.

(** The [for i, existing_setting in enumerate(self.settings)] loop of
    [save_setting]: the list iterator yields [self.settings[i]] while [i] is
    in range of the list as it is then, and [i] advances after every
    iteration, also after a [pop]. *)
Fixpoint save_setting_for (fuel i : nat) (setting : PasswordSetting) : M unit :=
  match fuel with
  | O => mret tt
  | S fuel =>
      l ← read_settings;
      match l !! i with
      | None => mret tt
      | Some existing_setting =>
          (if same_domain existing_setting (get_domain setting)
           then pop i else mret tt);;
          save_setting_for fuel (S i) setting
      end
  end.

Definition save_setting (setting : PasswordSetting) : M unit :=
  l ← read_settings;
  save_setting_for (length l) 0 setting;;
  append setting.

(** The [while i < len(self.settings)] loop of [delete_setting]. *)
Fixpoint delete_setting_while (fuel i : nat) (setting : PasswordSetting) : M unit :=
  match fuel with
  | O => mret tt
  | S fuel =>
      l ← read_settings;
      match l !! i with
      | None => mret tt
      | Some existing_setting =>
          if same_domain existing_setting (get_domain setting)
          then pop i;; delete_setting_while fuel i setting
          else delete_setting_while fuel (S i) setting
      end
  end.

Definition delete_setting (setting : PasswordSetting) : M unit :=
  l ← read_settings;
  delete_setting_while (length l) 0 setting.

(** [get_domain_list] *)
Definition get_domain_list : M (list string) :=
  l ← read_settings; mret (get_domain <$> l).

(** [set_all_settings_to_synced] *)
Definition set_all_settings_to_synced : M unit :=
  l ← read_settings; write_settings ((fun s => set_synced s true) <$> l).

(** ** [load_settings_from_file] *)

(** The inner [while] loop of [load_settings_from_file] for one [data_set];
    [synced] is [saved_settings['synced']]. *)
Fixpoint load_while (fuel : nat) (data_set : dict string) (synced : list string)
    (i : nat) (found : bool) : M bool :=
  match fuel with
  | O => mret found
  | S fuel =>
      l ← read_settings;
      match l !! i with
      | None => mret found
      | Some setting =>
          if same_domain setting (domain data_set) then
            t ← lift (parse (mDate data_set));
            (if gt t (get_m_date setting) then
               loaded ← lift (load_from_dict setting data_set);
               store i (set_synced loaded
                          (existsb (String.eqb (get_domain loaded)) synced))
             else mret tt);;
            load_while fuel data_set synced (S i) true
          else load_while fuel data_set synced (S i) found
      end
  end.

Definition load_entry (now : datetime) (synced : list string)
    (data_set : dict string) : M unit :=
  l ← read_settings;
  load_while (length l) data_set synced 0 false ≫= fun found : bool =>
  if found then mret tt else
    new_setting ← lift (load_from_dict (new_PasswordSetting (domain data_set) now) data_set);
    append (set_synced new_setting
              (existsb (String.eqb (get_domain new_setting)) synced)).

Fixpoint load_entries (now : datetime) (synced : list string)
    (saved : list (dict string)) : M unit :=
  match saved with
  | [] => mret tt
  | data_set :: rest => load_entry now synced data_set;; load_entries now synced rest
  end.

(** [json.loads(str(Packer.decompress(crypter.decrypt(content)), ...))] *)
Definition decode_file (password : string) (content : bytes) : result json_doc :=
  c ← decrypt password content;
  p ← decompress c;
  json_loads p.

(** [load_settings_from_file(password)].  [file] is the content of the
    settings file, [None] when [os.path.isfile] is false; [now] is the clock
    read by the [PasswordSetting] constructor. *)
Definition load_settings_from_file (password : string) (file : option bytes)
    (now : datetime) : M unit :=
  match file with
  | None => mret tt
  | Some content =>
      saved_settings ← lift (decode_file password content);
      match saved_settings with
      | JObject saved synced => load_entries now synced saved
      | JArray _ => raise TypeError
      end
  end.

(** ** [get_settings_as_list] and [get_export_data] *)

(** [get_settings_as_list]: the dictionaries of all settings, and the domains
    of the synced ones. *)
Definition get_settings_as_list : M (list (dict pyval) * list string) :=
  l ← read_settings;
  mret (to_dict <$> l, get_domain <$> List.filter is_synced l).

(** The [for i, setting_dict in enumerate(settings_list)] loop of
    [get_export_data] for a deleted [data_set]: [settings_list[i] = data_set]
    keeps the length, so the loop visits every entry once.  The domain test
    compares [setting_dict['domain']] with itself, as the source does. *)
Fixpoint overwrite_for (data_set : dict string) (settings_list : list (dict pyval))
    : result (list (dict pyval)) :=
  match settings_list with
  | [] => mret []
  | setting_dict :: rest =>
      entry ← (if String.eqb (domain setting_dict) (domain setting_dict) then
                 t ← parse (mDate data_set);
                 t' ← parse_value (mDate setting_dict);
                 mret (if gt t t' then of_json data_set else setting_dict)
               else mret setting_dict);
      rest' ← overwrite_for data_set rest;
      mret (entry :: rest')
  end.

(** The body of [for data_set in self.remote_data] in [get_export_data];
    [now] is the value of [datetime.now()]. *)
Definition export_entry (now : datetime) (settings_list : list (dict pyval))
    (data_set : dict string) : result (list (dict pyval)) :=
  settings_list ← (if is_deleted data_set
                   then overwrite_for data_set settings_list
                   else mret settings_list);
  if negb (existsb (String.eqb (domain data_set)) (domain <$> settings_list))
  then mret (settings_list ++ [mk_dict (domain data_set) (PyDatetime now) (Some true) []])
  else mret settings_list.

Fixpoint export_entries (now : datetime) (settings_list : list (dict pyval))
    (remote : list (dict string)) : result (list (dict pyval)) :=
  match remote with
  | [] => mret settings_list
  | data_set :: rest =>
      settings_list ← export_entry now settings_list data_set;
      export_entries now settings_list rest
  end.

(** The list handed to [json.dumps] by [get_export_data].  Iterating a
    decoded object yields its keys, and indexing a key with ['domain']
    raises. *)
Definition export_list (now : datetime) : M (list (dict pyval)) :=
  '(settings_list, _) ← get_settings_as_list;
  remote ← read_remote_data;
  match remote with
  | None => mret settings_list
  | Some (JArray entries) => lift (export_entries now settings_list entries)
  | Some (JObject _ _) => raise TypeError
  end.

(** [get_export_data(password)] *)
Definition get_export_data (password : string) (now : datetime) : M bytes :=
  settings_list ← export_list now;
  text ← lift (json_dumps settings_list);
  mret (b64encode (encrypt password (compress text))).

(** ** [update_from_export_data] *)

(** [json.loads(str(Packer.decompress(crypter.decrypt(b64decode(data))), ...))] *)
Definition decode_blob (password : string) (data : bytes) : result json_doc :=
  raw ← b64decode data;
  c ← decrypt password raw;
  p ← decompress c;
  json_loads p.

(** The inner [while] loop of the first pass for one [data_set]; it returns
    [found] and [update_remote]. *)
Fixpoint update_while (fuel : nat) (data_set : dict string) (i : nat)
    (found update_remote : bool) : M (bool * bool) :=
  match fuel with
  | O => mret (found, update_remote)
  | S fuel =>
      l ← read_settings;
      match l !! i with
      | None => mret (found, update_remote)
      | Some setting =>
          if same_domain setting (domain data_set) then
            t ← lift (parse (mDate data_set));
            if gt t (get_m_date setting) then
              if is_deleted data_set then
                pop i;;
                update_while fuel data_set i true update_remote
              else
                loaded ← lift (load_from_dict setting data_set);
                store i (set_synced loaded true);;
                update_while fuel data_set (S i) true update_remote
            else update_while fuel data_set (S i) true true
          else update_while fuel data_set (S i) found update_remote
      end
  end.

(** The body of the first [for data_set in self.remote_data]. *)
Definition update_entry (now : datetime) (data_set : dict string)
    (update_remote : bool) : M bool :=
  l ← read_settings;
  update_while (length l) data_set 0 false update_remote ≫=
  fun r : bool * bool =>
  if r.1 then mret r.2 else
    new_setting ← lift (load_from_dict (new_PasswordSetting (domain data_set) now) data_set);
    append (set_synced new_setting true);;
    mret r.2.

Fixpoint update_entries (now : datetime) (remote : list (dict string))
    (update_remote : bool) : M bool :=
  match remote with
  | [] => mret update_remote
  | data_set :: rest =>
      update_entry now data_set update_remote ≫= fun u : bool =>
      update_entries now rest u
  end.

(** The inner loop of the second pass, for one [setting]. *)
Fixpoint scan_remote (setting : PasswordSetting) (remote : list (dict string))
    (found update_remote : bool) : result (bool * bool) :=
  match remote with
  | [] => mret (found, update_remote)
  | data_set :: rest =>
      if same_domain setting (domain data_set) then
        t ← parse (mDate data_set);
        scan_remote setting rest true (update_remote || ge (get_m_date setting) t)
      else scan_remote setting rest found update_remote
  end.

(** The second pass, [for setting in self.settings]. *)
Fixpoint scan_settings (l : list PasswordSetting) (remote : list (dict string))
    (update_remote : bool) : result bool :=
  match l with
  | [] => mret update_remote
  | setting :: rest =>
      scan_remote setting remote false update_remote ≫= fun r : bool * bool =>
      scan_settings rest remote (if r.1 then r.2 else true)
  end.

(** [update_from_export_data(password, data)]; [now] is the clock read by
    the [PasswordSetting] constructor. *)
Definition update_from_export_data (password : string) (data : bytes)
    (now : datetime) : M bool :=
  decoded ← lift (decode_blob password data);
  write_remote_data (Some decoded);;
  match decoded with
  | JArray remote =>
      update_entries now remote false ≫= fun u : bool =>
      l ← read_settings;
      lift (scan_settings l remote u)
  | JObject _ _ => raise TypeError
  end.

(** ** Closed forms of the loops

    Each index loop above visits the elements of [self.settings] from left
    to right.  The functions below describe, by recursion on the list, what
    a loop leaves behind; the section on the loops proves that the loops
    compute them, for every amount of fuel the methods supply. *)

(** What [load_from_dict] makes of [s] once ['mDate'] has parsed to [t]. *)
Definition loaded (s : PasswordSetting) (t : datetime) (d : dict string) : PasswordSetting :=
  mk_setting (get_domain s) t (is_synced s) (others d).

(** The settings after the inner loop of the first pass of
    [update_from_export_data]. *)
Fixpoint merge_remote (t : datetime) (data_set : dict string)
    (l : list PasswordSetting) : list PasswordSetting :=
  match l with
  | [] => []
  | s :: r =>
      if same_domain s (domain data_set) then
        if gt t (get_m_date s) then
          if is_deleted data_set then merge_remote t data_set r
          else set_synced (loaded s t data_set) true :: merge_remote t data_set r
        else s :: merge_remote t data_set r
      else s :: merge_remote t data_set r
  end.

(** [found] after an inner loop over [l]. *)
Definition has_domain (dom : string) (l : list PasswordSetting) : bool :=
  existsb (fun s => same_domain s dom) l.

(** Whether the inner loop of the first pass sets [update_remote]. *)
Definition local_wins (t : datetime) (dom : string) (l : list PasswordSetting) : bool :=
  existsb (fun s => same_domain s dom && negb (gt t (get_m_date s))) l.

(** The setting appended by the first pass for an unknown domain. *)
Definition inserted (now : datetime) (data_set : dict string) (t : datetime) : PasswordSetting :=
  set_synced (loaded (new_PasswordSetting (domain data_set) now) t data_set) true.

(** The settings after one iteration of the first pass. *)
Definition merge_entry (now : datetime) (data_set : dict string) (t : datetime)
    (l : list PasswordSetting) : list PasswordSetting :=
  merge_remote t data_set l ++
  (if has_domain (domain data_set) l then [] else [inserted now data_set t]).

(** The settings after the first pass, which stops at an entry whose date
    does not parse. *)
Fixpoint merge_all (now : datetime) (remote : list (dict string))
    (l : list PasswordSetting) : list PasswordSetting :=
  match remote with
  | [] => l
  | data_set :: rest =>
      match strptime (mDate data_set) with
      | Some t => merge_all now rest (merge_entry now data_set t l)
      | None => l
      end
  end.

(** [update_remote] after the first pass. *)
Fixpoint lost_all (now : datetime) (remote : list (dict string))
    (l : list PasswordSetting) : bool :=
  match remote with
  | [] => false
  | data_set :: rest =>
      match strptime (mDate data_set) with
      | Some t => local_wins t (domain data_set) l ||
                  lost_all now rest (merge_entry now data_set t l)
      | None => false
      end
  end.

(** Every ['mDate'] of the payload matches the format. *)
Definition all_parse (remote : list (dict string)) : Prop :=
  Forall (fun d => is_Some (strptime (mDate d))) remote.

(** The test of the second pass on a setting and an entry of its domain. *)
Definition counterpart_not_newer (s : PasswordSetting) (d : dict string) : bool :=
  same_domain s (domain d) &&
  match strptime (mDate d) with
  | Some t => ge (get_m_date s) t
  | None => false
  end.

(** Whether the second pass sets [update_remote] at setting [s]. *)
Definition needs_export (remote : list (dict string)) (s : PasswordSetting) : bool :=
  negb (existsb (fun d => same_domain s (domain d)) remote) ||
  existsb (counterpart_not_newer s) remote.

(** One setting after the inner loop of [load_settings_from_file]. *)
Definition load_one (t : datetime) (data_set : dict string) (synced : list string)
    (s : PasswordSetting) : PasswordSetting :=
  if same_domain s (domain data_set) && gt t (get_m_date s)
  then set_synced (loaded s t data_set)
         (existsb (String.eqb (get_domain (loaded s t data_set))) synced)
  else s.

(** The setting [load_settings_from_file] appends for an unknown domain. *)
Definition load_new (now : datetime) (data_set : dict string) (synced : list string)
    (t : datetime) : PasswordSetting :=
  let new_setting := loaded (new_PasswordSetting (domain data_set) now) t data_set in
  set_synced new_setting (existsb (String.eqb (get_domain new_setting)) synced).

(** The settings after one [data_set] of [load_settings_from_file]. *)
Definition load_merge (now : datetime) (data_set : dict string) (synced : list string)
    (t : datetime) (l : list PasswordSetting) : list PasswordSetting :=
  (load_one t data_set synced <$> l) ++
  (if has_domain (domain data_set) l then [] else [load_new now data_set synced t]).

(** The settings after the loop of [delete_setting]. *)
Fixpoint without_domain (dom : string) (l : list PasswordSetting) : list PasswordSetting :=
  match l with
  | [] => []
  | s :: r => if same_domain s dom then without_domain dom r
              else s :: without_domain dom r
  end.

(** The settings after the loop of [save_setting]: the element that moves
    into the place of a popped one is stepped over. *)
Fixpoint save_pass (dom : string) (l : list PasswordSetting) : list PasswordSetting :=
  match l with
  | [] => []
  | s :: r =>
      if same_domain s dom then
        match r with
        | [] => []
        | skipped :: r' => skipped :: save_pass dom r'
        end
      else s :: save_pass dom r
  end.

(** ** The properties under study *)

(** The invariant of the collection: at most one record per domain. *)
Definition one_per_domain (l : list PasswordSetting) : Prop :=
  NoDup (get_domain <$> l).

(** Some record of [l] has no entry of its domain in [remote], or is not
    strictly older than an entry of its domain. *)
Definition export_needed (remote : list (dict string)) (l : list PasswordSetting) : Prop :=
  exists s, s ∈ l /\
    ((forall d, d ∈ remote -> domain d <> get_domain s) \/
     (exists d t, d ∈ remote /\ domain d = get_domain s /\
                  strptime (mDate d) = Some t /\ ge (get_m_date s) t = true)).

(** A retained snapshot that [get_export_data] passes over: every entry is
    live and its domain is held locally. *)
Definition quiet_snapshot (l : list PasswordSetting) (rd : option json_doc) : Prop :=
  match rd with
  | None => True
  | Some (JArray entries) =>
      Forall (fun d => is_deleted d = false /\ domain d ∈ (get_domain <$> l)) entries
  | Some (JObject _ _) => False
  end.

(** The record data [json.dumps] writes for a setting. *)
Definition dumped (s : PasswordSetting) : dict string :=
  mk_dict (get_domain s) (strftime (get_m_date s)) None (get_fields s).

(** The record a winning live entry leaves behind. *)
Definition record_of (data_set : dict string) (t : datetime) : PasswordSetting :=
  mk_setting (domain data_set) t true (others data_set).

(** ** Sample data for the concrete instances *)

Definition noon (d : Z) : datetime := mk_datetime 2015 1 d 12 0 0 0.

Definition sample_now : datetime := mk_datetime 2016 3 1 8 30 0 250000.

Definition sample_setting (dom : string) (d : Z) : PasswordSetting :=
  mk_setting dom (noon d) false [("length", "10")].

Definition live_entry (dom stamp : string) : dict string :=
  mk_dict dom stamp None [("length", "16")].

Definition tombstone (dom stamp : string) : dict string :=
  mk_dict dom stamp (Some true) [].

Definition sample_blob (password : string) (entries : list (dict string)) : bytes :=
  b64encode (encrypt password (compress (Utf8 (JArray entries)))).

(** ** [save_settings_to_file] *)

(** [json.dumps] of the dictionary [get_settings_as_list] returns. *)
Definition json_dumps_settings (settings_list : list (dict pyval) * list string)
    : result bytes :=
  js ← dump_list settings_list.1; mret (Utf8 (JObject js settings_list.2)).

(** [save_settings_to_file(password)]: the value is the content written to
    the settings file.  The file is opened for writing before the content
    is computed, so a raise leaves it empty; hiding the file on Windows does
    not touch its content and is left out. *)
Definition save_settings_to_file (password : string) : M bytes :=
  settings_list ← get_settings_as_list;
  text ← lift (json_dumps_settings settings_list);
  mret (encrypt password (compress text)).

(** ** Closed forms for the further properties *)

(** The settings after the loop over [saved_settings['settings']], which
    stops at an entry whose date does not parse. *)
Fixpoint load_all (now : datetime) (synced : list string) (saved : list (dict string))
    (l : list PasswordSetting) : list PasswordSetting :=
  match saved with
  | [] => l
  | data_set :: rest =>
      match strptime (mDate data_set) with
      | Some t => load_all now synced rest (load_merge now data_set synced t l)
      | None => l
      end
  end.

(** A setting as it comes back from the settings file: the modification
    time has lost its microseconds. *)
Definition reloaded (s : PasswordSetting) : PasswordSetting :=
  mk_setting (get_domain s) (truncate (get_m_date s)) (is_synced s) (get_fields s).

(** Every record of the entry's domain is at least as new as the entry, and
    there is one: merging the entry again changes nothing. *)
Definition settled (data_set : dict string) (t : datetime)
    (l : list PasswordSetting) : Prop :=
  has_domain (domain data_set) l = true /\
  forall s, s ∈ l -> get_domain s = domain data_set -> gt t (get_m_date s) = false.

(** Merging any of the entries again changes nothing. *)
Definition all_settled (entries : list (dict string)) (l : list PasswordSetting) : Prop :=
  Forall (fun d => forall t, strptime (mDate d) = Some t -> settled d t l) entries.

(** No entry of the payload is a tombstone. *)
Definition all_live (remote : list (dict string)) : Prop :=
  Forall (fun d => is_deleted d = false) remote.

(** ** Further sample data *)

Definition sample_pair : list PasswordSetting :=
  [sample_setting "a.com" 1; mk_setting "b.com" (noon 2) true []].

Definition sample_file (password : string) (saved : list (dict string))
    (synced : list string) : bytes :=
  encrypt password (compress (Utf8 (JObject saved synced))).

(** * Properties *)

(** ** Examples of parsing and formatting *)

Example strptime_ex1 :
  strptime "2015-09-04T10:22:07" = Some (mk_datetime 2015 9 4 10 22 7 0).
Proof. reflexivity. Qed.

Example strptime_ex2 : strptime "2015-02-30T10:22:07" = None.
Proof. reflexivity. Qed.

Example strptime_ex3 : strptime "2015-9-4T1:2:3" = Some (mk_datetime 2015 9 4 1 2 3 0).
Proof. reflexivity. Qed.

Example strftime_ex1 :
  strftime (mk_datetime 2015 9 4 10 22 7 123) = "2015-09-04T10:22:07".
Proof. reflexivity. Qed.

(** ** Facts about [datetime] *)

Section DatetimeFacts.
Local Open Scope Z_scope.

Lemma lex_opp c1 c2 : CompOpp (lex c1 c2) = lex (CompOpp c1) (CompOpp c2).
Proof. by destruct c1. Qed.

Lemma cmp_antisym a b : cmp b a = CompOpp (cmp a b).
Proof.
  unfold cmp. rewrite !lex_opp, <- !Z.compare_antisym. done.
Qed.

Lemma cmp_refl a : cmp a a = Eq.
Proof. unfold cmp. by rewrite !Z.compare_refl. Qed.

Lemma ge_refl a : ge a a = true.
Proof. unfold ge. by rewrite cmp_refl. Qed.

Lemma gt_irrefl a : gt a a = false.
Proof. unfold gt. by rewrite cmp_refl. Qed.

Lemma not_gt_ge a b : gt a b = false -> ge b a = true.
Proof.
  unfold gt, ge. rewrite (cmp_antisym a b). by destruct (cmp a b).
Qed.

Lemma truncate_not_gt t : 0 <= microsecond t -> gt (truncate t) t = false.
Proof.
  intros H. unfold gt, cmp, truncate; simpl.
  rewrite !Z.compare_refl; simpl.
  destruct (microsecond t); [done | done | lia].
Qed.

Lemma valid_bounds t :
  valid t = true <->
  (1 <= year t <= 9999 /\ 1 <= month t <= 12 /\
   1 <= day t <= days_in_month (year t) (month t) /\
   0 <= hour t <= 23 /\ 0 <= minute t <= 59 /\ 0 <= second t <= 59 /\
   0 <= microsecond t <= 999999).
Proof.
  unfold valid. rewrite !andb_true_iff, !Z.leb_le. tauto.
Qed.

Lemma days_in_month_le y m : days_in_month y m <= 31.
Proof.
  unfold days_in_month.
  destruct m as [|p|p]; try lia.
  destruct (is_leap y); repeat (destruct p as [p|p|]; try lia).
Qed.

Lemma valid_truncate t : valid t = true -> valid (truncate t) = true.
Proof.
  rewrite !valid_bounds. simpl. lia.
Qed.

Lemma digit_of_digit_char d : 0 <= d < 10 -> digit_of (digit_char d) = Some d.
Proof.
  intros H.
  assert (d = 0 \/ d = 1 \/ d = 2 \/ d = 3 \/ d = 4 \/ d = 5 \/ d = 6 \/
          d = 7 \/ d = 8 \/ d = 9) as Hd by lia.
  repeat (destruct Hd as [-> | Hd]; [ reflexivity | ]). by subst.
Qed.

Lemma pad2_app n r :
  (pad2 n ++ r)%string =
  String (digit_char (n / 10 mod 10)) (String (digit_char (n mod 10)) r).
Proof. reflexivity. Qed.

Lemma pad4_app n r :
  (pad4 n ++ r)%string =
  String (digit_char (n / 1000 mod 10)) (String (digit_char (n / 100 mod 10))
    (String (digit_char (n / 10 mod 10)) (String (digit_char (n mod 10)) r))).
Proof. reflexivity. Qed.

Lemma directive_pad2 n c r :
  0 <= n < 100 -> digit_of c = None ->
  directive 1 2 (pad2 n ++ String c r) = Some (n, String c r).
Proof.
  intros Hn Hc. rewrite pad2_app. unfold directive. cbn [take_digits].
  rewrite !digit_of_digit_char by (Z.div_mod_to_equations; lia).
  rewrite Hc. cbn. f_equal. f_equal. Z.div_mod_to_equations; lia.
Qed.

Lemma directive_pad2_end n :
  0 <= n < 100 -> directive 1 2 (pad2 n) = Some (n, EmptyString).
Proof.
  intros Hn. unfold directive, pad2. cbn [take_digits].
  rewrite !digit_of_digit_char by (Z.div_mod_to_equations; lia).
  cbn. f_equal. f_equal. Z.div_mod_to_equations; lia.
Qed.

Lemma directive_pad4 n c r :
  0 <= n < 10000 -> digit_of c = None ->
  directive 4 4 (pad4 n ++ String c r) = Some (n, String c r).
Proof.
  intros Hn Hc. rewrite pad4_app. unfold directive. cbn [take_digits].
  rewrite !digit_of_digit_char by (Z.div_mod_to_equations; lia).
  rewrite Hc. cbn. f_equal. f_equal. Z.div_mod_to_equations; lia.
Qed.

Lemma strftime_unfold t :
  strftime t =
  (pad4 (year t) ++ String "-" (pad2 (month t) ++ String "-" (pad2 (day t) ++
   String "T" (pad2 (hour t) ++ String ":" (pad2 (minute t) ++
   String ":" (pad2 (second t)))))))%string.
Proof. reflexivity. Qed.

Lemma strptime_strftime t :
  valid t = true -> strptime (strftime t) = Some (truncate t).
Proof.
  intros Hv. pose proof (valid_truncate t Hv) as Hv'.
  apply valid_bounds in Hv.
  pose proof (days_in_month_le (year t) (month t)).
  rewrite strftime_unfold. unfold strptime.
  rewrite directive_pad4 by (done || lia). cbn [opt_bind literal Ascii.eqb Bool.eqb orb].
  rewrite directive_pad2 by (done || lia). cbn [opt_bind literal Ascii.eqb Bool.eqb orb].
  rewrite directive_pad2 by (done || lia). cbn [opt_bind literal Ascii.eqb Bool.eqb orb].
  rewrite directive_pad2 by (done || lia). cbn [opt_bind literal Ascii.eqb Bool.eqb orb].
  rewrite directive_pad2 by (done || lia). cbn [opt_bind literal Ascii.eqb Bool.eqb orb].
  rewrite directive_pad2_end by lia. cbn [opt_bind].
  fold (truncate t). by rewrite Hv'.
Qed.
End DatetimeFacts.

(** ** Running the loops *)

Lemma insert_middle {A} (l1 l2 : list A) (x y : A) :
  <[length l1 := y]> (l1 ++ x :: l2) = l1 ++ y :: l2.
Proof. induction l1 as [|a l1 IH]; simpl; [done | by rewrite IH]. Qed.

Lemma lookup_end {A} (l : list A) : l !! length l = None.
Proof. apply lookup_ge_None. lia. Qed.

Lemma snoc_app {A} (pre : list A) x r : pre ++ x :: r = (pre ++ [x]) ++ r.
Proof. by rewrite <- app_assoc. Qed.

Lemma length_snoc {A} (pre : list A) x : S (length pre) = length (pre ++ [x]).
Proof. rewrite length_app. simpl. lia. Qed.

Lemma load_from_dict_parsed s d t :
  strptime (mDate d) = Some t -> load_from_dict s d = Returns (loaded s t d).
Proof. intros H. unfold load_from_dict, parse. by rewrite H. Qed.

Lemma bind_run {A B} (c : M A) (k : A -> M B) m :
  (c ≫= k) m =
  match c m with
  | (Returns a, m') => k a m'
  | (Raises e, m') => (Raises e, m')
  end.
Proof. reflexivity. Qed.

Lemma ret_run {A} (a : A) m : (mret a : M A) m = (Returns a, m).
Proof. reflexivity. Qed.

Ltac run :=
  repeat first
    [ rewrite bind_run
    | rewrite ret_run
    | progress unfold append, pop, store, raise
    | progress cbn [lift read_settings write_settings read_remote_data
                    write_remote_data settings remote_data] ].

Ltac advance x :=
  rewrite (snoc_app _ x), (length_snoc _ x).

Lemma update_while_run t data_set rd :
  strptime (mDate data_set) = Some t ->
  forall suf fuel pre found u,
    length suf <= fuel ->
    update_while fuel data_set (length pre) found u (mk_manager (pre ++ suf) rd) =
    (Returns (found || has_domain (domain data_set) suf,
              u || local_wins t (domain data_set) suf),
     mk_manager (pre ++ merge_remote t data_set suf) rd).
Proof.
  intros Ht. induction suf as [|s r IH]; intros fuel pre found u Hf.
  - rewrite app_nil_r. cbn [has_domain local_wins existsb merge_remote].
    rewrite !orb_false_r, app_nil_r.
    destruct fuel; [done |]. cbn [update_while]. run.
    by rewrite lookup_end.
  - destruct fuel as [|fuel]; [simpl in Hf; lia |]. simpl in Hf.
    cbn [update_while]. run. rewrite list_lookup_middle by done.
    cbn [has_domain local_wins existsb merge_remote].
    destruct (same_domain s (domain data_set)) eqn:Hd.
    + unfold parse. rewrite Ht. run.
      destruct (gt t (get_m_date s)) eqn:Hg.
      * destruct (is_deleted data_set) eqn:Hdel.
        -- run. rewrite delete_middle. rewrite IH by lia.
           by rewrite orb_true_r.
        -- rewrite (load_from_dict_parsed _ _ _ Ht). run.
           rewrite insert_middle. advance (set_synced (loaded s t data_set) true).
           rewrite IH by lia. by rewrite <- app_assoc, orb_true_r.
      * advance s. rewrite IH by lia.
        by rewrite <- app_assoc, !orb_true_r.
    + advance s. rewrite IH by lia.
      by rewrite <- app_assoc.
Qed.

Lemma update_while_unparsed data_set rd :
  strptime (mDate data_set) = None ->
  forall suf fuel pre found u,
    length suf <= fuel ->
    update_while fuel data_set (length pre) found u (mk_manager (pre ++ suf) rd) =
    (if has_domain (domain data_set) suf then Raises ValueError
     else Returns (found, u),
     mk_manager (pre ++ suf) rd).
Proof.
  intros Ht. induction suf as [|s r IH]; intros fuel pre found u Hf.
  - rewrite app_nil_r. cbn [has_domain existsb].
    destruct fuel; [done |]. cbn [update_while]. run.
    by rewrite lookup_end.
  - destruct fuel as [|fuel]; [simpl in Hf; lia |]. simpl in Hf.
    cbn [update_while]. run. rewrite list_lookup_middle by done.
    cbn [has_domain existsb].
    destruct (same_domain s (domain data_set)) eqn:Hd.
    + unfold parse. rewrite Ht. by run.
    + advance s. rewrite IH by lia. by rewrite <- app_assoc.
Qed.

Lemma merge_remote_absent t data_set l :
  has_domain (domain data_set) l = false -> merge_remote t data_set l = l.
Proof.
  induction l as [|s r IH]; [done |]. cbn [has_domain existsb merge_remote].
  intros [Hs Hr]%orb_false_iff. rewrite Hs. f_equal. by apply IH.
Qed.

Lemma update_entry_run now data_set t u l rd :
  strptime (mDate data_set) = Some t ->
  update_entry now data_set u (mk_manager l rd) =
  (Returns (u || local_wins t (domain data_set) l),
   mk_manager (merge_entry now data_set t l) rd).
Proof.
  intros Ht. unfold update_entry, merge_entry. run.
  pose proof (update_while_run t data_set rd Ht l (length l) [] false u) as H.
  cbn [length app orb] in H. rewrite H by done. cbn [fst snd].
  destruct (has_domain (domain data_set) l) eqn:Hh.
  - run. by rewrite app_nil_r.
  - rewrite (load_from_dict_parsed _ _ _ Ht). run.
    by rewrite (merge_remote_absent _ _ _ Hh).
Qed.

Lemma update_entry_unparsed now data_set u m :
  strptime (mDate data_set) = None ->
  update_entry now data_set u m = (Raises ValueError, m).
Proof.
  intros Ht. destruct m as [l rd]. unfold update_entry. run.
  pose proof (update_while_unparsed data_set rd Ht l (length l) [] false u) as H.
  cbn [length app] in H. rewrite H by done. destruct (has_domain (domain data_set) l); [done |].
  cbn [fst]. unfold load_from_dict, parse. rewrite Ht. by run.
Qed.

Lemma update_entries_run now rd remote :
  all_parse remote ->
  forall l u,
    update_entries now remote u (mk_manager l rd) =
    (Returns (u || lost_all now remote l), mk_manager (merge_all now remote l) rd).
Proof.
  induction 1 as [|d rest [t Ht] _ IH]; intros l u.
  - cbn [update_entries lost_all merge_all]. run. by rewrite orb_false_r.
  - cbn [update_entries lost_all merge_all]. run.
    rewrite (update_entry_run _ _ _ _ _ _ Ht), Ht, IH.
    by rewrite orb_assoc.
Qed.

Lemma scan_remote_run s remote :
  all_parse remote ->
  forall found u,
    scan_remote s remote found u =
    Returns (found || existsb (fun d => same_domain s (domain d)) remote,
             u || existsb (counterpart_not_newer s) remote).
Proof.
  induction 1 as [|d rest [t Ht] _ IH]; intros found u.
  - cbn [scan_remote existsb]. by rewrite !orb_false_r.
  - cbn [scan_remote existsb]. unfold counterpart_not_newer at 1.
    destruct (same_domain s (domain d)).
    + unfold parse. rewrite Ht. cbn [mbind result_bind]. rewrite IH.
      cbn [andb]. by rewrite orb_true_r, orb_assoc.
    + by rewrite IH.
Qed.

Lemma scan_settings_run remote :
  all_parse remote ->
  forall l u,
    scan_settings l remote u = Returns (u || existsb (needs_export remote) l).
Proof.
  intros Hp. induction l as [|s r IH]; intros u.
  - cbn [scan_settings existsb]. by rewrite orb_false_r.
  - cbn [scan_settings existsb]. rewrite (scan_remote_run s remote Hp).
    cbn [mbind result_bind fst snd orb]. rewrite IH. unfold needs_export at 2.
    destruct (existsb (fun d => same_domain s (domain d)) remote); cbn [negb orb].
    + by rewrite orb_assoc.
    + by rewrite orb_true_r.
Qed.

Lemma update_from_export_data_run password data now remote l rd :
  decode_blob password data = Returns (JArray remote) ->
  all_parse remote ->
  update_from_export_data password data now (mk_manager l rd) =
  (Returns (lost_all now remote l ||
            existsb (needs_export remote) (merge_all now remote l)),
   mk_manager (merge_all now remote l) (Some (JArray remote))).
Proof.
  intros Hd Hp. unfold update_from_export_data. rewrite Hd. run.
  rewrite (update_entries_run now _ remote Hp). run.
  by rewrite (scan_settings_run remote Hp).
Qed.

Lemma load_while_run t data_set synced rd :
  strptime (mDate data_set) = Some t ->
  forall suf fuel pre found,
    length suf <= fuel ->
    load_while fuel data_set synced (length pre) found (mk_manager (pre ++ suf) rd) =
    (Returns (found || has_domain (domain data_set) suf),
     mk_manager (pre ++ (load_one t data_set synced <$> suf)) rd).
Proof.
  intros Ht. induction suf as [|s r IH]; intros fuel pre found Hf.
  - rewrite app_nil_r. cbn [has_domain existsb fmap list_fmap].
    rewrite orb_false_r, app_nil_r.
    destruct fuel; [done |]. cbn [load_while]. run.
    by rewrite lookup_end.
  - destruct fuel as [|fuel]; [simpl in Hf; lia |]. simpl in Hf.
    cbn [load_while]. run. rewrite list_lookup_middle by done.
    cbn [has_domain existsb]. rewrite fmap_cons. unfold load_one at 1.
    destruct (same_domain s (domain data_set)) eqn:Hd; cbn [andb].
    + unfold parse. rewrite Ht. run.
      destruct (gt t (get_m_date s)) eqn:Hg.
      * rewrite (load_from_dict_parsed _ _ _ Ht). run.
        rewrite insert_middle.
        match goal with |- context [?x :: r] => advance x end.
        rewrite IH by lia. by rewrite <- app_assoc, orb_true_r.
      * run. advance s. rewrite IH by lia.
        by rewrite <- app_assoc, orb_true_r.
    + advance s. rewrite IH by lia. by rewrite <- app_assoc.
Qed.

Lemma load_while_unparsed data_set synced rd :
  strptime (mDate data_set) = None ->
  forall suf fuel pre found,
    length suf <= fuel ->
    load_while fuel data_set synced (length pre) found (mk_manager (pre ++ suf) rd) =
    (if has_domain (domain data_set) suf then Raises ValueError else Returns found,
     mk_manager (pre ++ suf) rd).
Proof.
  intros Ht. induction suf as [|s r IH]; intros fuel pre found Hf.
  - rewrite app_nil_r. cbn [has_domain existsb].
    destruct fuel; [done |]. cbn [load_while]. run.
    by rewrite lookup_end.
  - destruct fuel as [|fuel]; [simpl in Hf; lia |]. simpl in Hf.
    cbn [load_while]. run. rewrite list_lookup_middle by done.
    cbn [has_domain existsb].
    destruct (same_domain s (domain data_set)) eqn:Hd.
    + unfold parse. rewrite Ht. by run.
    + advance s. rewrite IH by lia. by rewrite <- app_assoc.
Qed.

Lemma load_entry_run now synced data_set t l rd :
  strptime (mDate data_set) = Some t ->
  load_entry now synced data_set (mk_manager l rd) =
  (Returns tt, mk_manager (load_merge now data_set synced t l) rd).
Proof.
  intros Ht. unfold load_entry, load_merge. run.
  pose proof (load_while_run t data_set synced rd Ht l (length l) [] false) as H.
  cbn [length app orb] in H. rewrite H by done.
  destruct (has_domain (domain data_set) l) eqn:Hh.
  - run. by rewrite app_nil_r.
  - rewrite (load_from_dict_parsed _ _ _ Ht). run. done.
Qed.

Lemma load_entry_unparsed now synced data_set m :
  strptime (mDate data_set) = None ->
  load_entry now synced data_set m = (Raises ValueError, m).
Proof.
  intros Ht. destruct m as [l rd]. unfold load_entry. run.
  pose proof (load_while_unparsed data_set synced rd Ht l (length l) [] false) as H.
  cbn [length app] in H. rewrite H by done.
  destruct (has_domain (domain data_set) l); [done |].
  unfold load_from_dict, parse. rewrite Ht. by run.
Qed.

Lemma delete_setting_while_run setting rd :
  forall suf fuel pre,
    length suf <= fuel ->
    delete_setting_while fuel (length pre) setting (mk_manager (pre ++ suf) rd) =
    (Returns tt, mk_manager (pre ++ without_domain (get_domain setting) suf) rd).
Proof.
  induction suf as [|s r IH]; intros fuel pre Hf.
  - cbn [without_domain]. rewrite app_nil_r. destruct fuel; [done |].
    cbn [delete_setting_while]. run. by rewrite lookup_end.
  - destruct fuel as [|fuel]; [simpl in Hf; lia |]. simpl in Hf.
    cbn [delete_setting_while without_domain]. run.
    rewrite list_lookup_middle by done.
    destruct (same_domain s (get_domain setting)).
    + run. rewrite delete_middle. by rewrite IH by lia.
    + advance s. rewrite IH by lia. by rewrite <- app_assoc.
Qed.

Lemma save_setting_for_run setting rd :
  forall fuel suf pre,
    length suf <= fuel ->
    save_setting_for fuel (length pre) setting (mk_manager (pre ++ suf) rd) =
    (Returns tt, mk_manager (pre ++ save_pass (get_domain setting) suf) rd).
Proof.
  induction fuel as [|fuel IH]; intros suf pre Hf.
  - destruct suf; [| simpl in Hf; lia].
    cbn [save_pass]. by rewrite app_nil_r.
  - destruct suf as [|s r].
    + cbn [save_pass]. rewrite app_nil_r. cbn [save_setting_for]. run.
      by rewrite lookup_end.
    + simpl in Hf. cbn [save_setting_for save_pass]. run.
      rewrite list_lookup_middle by done.
      destruct (same_domain s (get_domain setting)).
      * run. rewrite delete_middle.
        destruct r as [|skipped r'].
        -- rewrite app_nil_r. destruct fuel; [done |].
           cbn [save_setting_for]. run.
           by rewrite (lookup_ge_None_2 pre (S (length pre))) by lia.
        -- advance skipped. rewrite IH by (simpl in Hf; lia).
           by rewrite <- app_assoc.
      * run. advance s. rewrite IH by lia. by rewrite <- app_assoc.
Qed.

(** The loops do not depend on the fuel once it covers the list: the
    methods, which supply [len(self.settings)], never stop a loop early. *)
Lemma update_while_fuel data_set l rd found u fuel fuel' :
  length l <= fuel -> length l <= fuel' ->
  update_while fuel data_set 0 found u (mk_manager l rd) =
  update_while fuel' data_set 0 found u (mk_manager l rd).
Proof.
  intros H H'. destruct (strptime (mDate data_set)) as [t|] eqn:Ht.
  - pose proof (update_while_run t data_set rd Ht l fuel [] found u H) as R.
    pose proof (update_while_run t data_set rd Ht l fuel' [] found u H') as R'.
    cbn [length app] in R, R'. by rewrite R, R'.
  - pose proof (update_while_unparsed data_set rd Ht l fuel [] found u H) as R.
    pose proof (update_while_unparsed data_set rd Ht l fuel' [] found u H') as R'.
    cbn [length app] in R, R'. by rewrite R, R'.
Qed.

Lemma load_while_fuel data_set synced l rd found fuel fuel' :
  length l <= fuel -> length l <= fuel' ->
  load_while fuel data_set synced 0 found (mk_manager l rd) =
  load_while fuel' data_set synced 0 found (mk_manager l rd).
Proof.
  intros H H'. destruct (strptime (mDate data_set)) as [t|] eqn:Ht.
  - pose proof (load_while_run t data_set synced rd Ht l fuel [] found H) as R.
    pose proof (load_while_run t data_set synced rd Ht l fuel' [] found H') as R'.
    cbn [length app] in R, R'. by rewrite R, R'.
  - pose proof (load_while_unparsed data_set synced rd Ht l fuel [] found H) as R.
    pose proof (load_while_unparsed data_set synced rd Ht l fuel' [] found H') as R'.
    cbn [length app] in R, R'. by rewrite R, R'.
Qed.

Lemma delete_setting_while_fuel setting l rd fuel fuel' :
  length l <= fuel -> length l <= fuel' ->
  delete_setting_while fuel 0 setting (mk_manager l rd) =
  delete_setting_while fuel' 0 setting (mk_manager l rd).
Proof.
  intros H H'.
  pose proof (delete_setting_while_run setting rd l fuel [] H) as R.
  pose proof (delete_setting_while_run setting rd l fuel' [] H') as R'.
  cbn [length app] in R, R'. by rewrite R, R'.
Qed.

Lemma save_setting_for_fuel setting l rd fuel fuel' :
  length l <= fuel -> length l <= fuel' ->
  save_setting_for fuel 0 setting (mk_manager l rd) =
  save_setting_for fuel' 0 setting (mk_manager l rd).
Proof.
  intros H H'.
  pose proof (save_setting_for_run setting rd fuel l [] H) as R.
  pose proof (save_setting_for_run setting rd fuel' l [] H') as R'.
  cbn [length app] in R, R'. by rewrite R, R'.
Qed.

(** ** Membership in the merged collection *)

Lemma same_domain_true s dom : same_domain s dom = true <-> get_domain s = dom.
Proof. unfold same_domain. apply String.eqb_eq. Qed.

Lemma same_domain_false s dom : same_domain s dom = false <-> get_domain s <> dom.
Proof. unfold same_domain. apply String.eqb_neq. Qed.

Lemma has_domain_true dom l :
  has_domain dom l = true <-> exists s, s ∈ l /\ get_domain s = dom.
Proof.
  unfold has_domain. rewrite existsb_exists. split.
  - intros (s & Hs & Hd). exists s. split; [by apply list_elem_of_In |].
    by apply same_domain_true.
  - intros (s & Hs & Hd). exists s. split; [by apply list_elem_of_In |].
    by apply same_domain_true.
Qed.

Lemma has_domain_false dom l :
  has_domain dom l = false <-> dom ∉ (get_domain <$> l).
Proof.
  rewrite <- not_true_iff_false, has_domain_true, list_elem_of_fmap. split.
  - intros H (s & -> & Hs). apply H. by exists s.
  - intros H (s & Hs & <-). apply H. by exists s.
Qed.

Lemma unique_by_domain l x y :
  one_per_domain l -> x ∈ l -> y ∈ l -> get_domain x = get_domain y -> x = y.
Proof.
  unfold one_per_domain. induction l as [|a l IH]; [by intros _ ?%elem_of_nil |].
  rewrite fmap_cons, NoDup_cons, !elem_of_cons.
  intros [Ha Hl] [-> | Hx] [-> | Hy] Hxy; try done.
  - exfalso. apply Ha. rewrite Hxy. by apply list_elem_of_fmap_2.
  - exfalso. apply Ha. rewrite <- Hxy. by apply list_elem_of_fmap_2.
  - by apply IH.
Qed.

Lemma merge_remote_elem t data_set l x :
  x ∈ merge_remote t data_set l <->
  (x ∈ l /\ (get_domain x <> domain data_set \/ gt t (get_m_date x) = false)) \/
  (is_deleted data_set = false /\
   exists s, s ∈ l /\ get_domain s = domain data_set /\
             gt t (get_m_date s) = true /\
             x = set_synced (loaded s t data_set) true).
Proof.
  induction l as [|s r IH]; cbn [merge_remote].
  - split; [by intros ?%elem_of_nil |].
    intros [[?%elem_of_nil _] | (_ & ? & ?%elem_of_nil & _)]; done.
  - destruct (same_domain s (domain data_set)) eqn:Hd;
      [apply same_domain_true in Hd | apply same_domain_false in Hd].
    + destruct (gt t (get_m_date s)) eqn:Hg.
      * destruct (is_deleted data_set) eqn:Hdel.
        -- rewrite IH. split.
           ++ intros [[Hx Hc] | [? _]]; [| done]. left. split; [| done].
              by apply list_elem_of_further.
           ++ intros [[[-> | Hx]%elem_of_cons Hc] | [? _]]; [| | done].
              ** destruct Hc; congruence.
              ** left. by split.
        -- rewrite elem_of_cons, IH. split.
           ++ intros [-> | [[Hx Hc] | (_ & s' & Hs' & Hrest)]].
              ** right. split; [done |]. exists s. split; [apply list_elem_of_here | done].
              ** left. split; [by apply list_elem_of_further | done].
              ** right. split; [done |]. exists s'. split; [by apply list_elem_of_further | done].
           ++ intros [[[-> | Hx]%elem_of_cons Hc] | (_ & s' & [-> | Hs']%elem_of_cons & Hrest)].
              ** destruct Hc; congruence.
              ** right. left. by split.
              ** left. by destruct Hrest as (_ & _ & ->).
              ** right. right. split; [done |]. by exists s'.
      * rewrite !elem_of_cons, IH. split.
        -- intros [-> | [[Hx Hc] | (? & s' & Hs' & Hrest)]].
           ++ left. split; [by left | by right].
           ++ left. split; [by right | done].
           ++ right. split; [done |]. exists s'. split; [by apply list_elem_of_further | done].
        -- intros [[[-> | Hx] Hc] | (? & s' & [-> | Hs']%elem_of_cons & Hrest)].
           ++ by left.
           ++ right. left. by split.
           ++ destruct Hrest as (_ & ? & _). congruence.
           ++ right. right. split; [done |]. by exists s'.
    + rewrite !elem_of_cons, IH. split.
      * intros [-> | [[Hx Hc] | (? & s' & Hs' & Hrest)]].
        -- left. split; [by left | by left].
        -- left. split; [by right | done].
        -- right. split; [done |]. exists s'. split; [by apply list_elem_of_further | done].
      * intros [[[-> | Hx] Hc] | (? & s' & [-> | Hs']%elem_of_cons & Hrest)].
        -- by left.
        -- right. left. by split.
        -- destruct Hrest as (? & _). congruence.
        -- right. right. split; [done |]. by exists s'.
Qed.

Lemma merge_remote_fixed t data_set l :
  (forall s, s ∈ l -> get_domain s = domain data_set -> gt t (get_m_date s) = false) ->
  merge_remote t data_set l = l.
Proof.
  induction l as [|s r IH]; [done |]. intros H. cbn [merge_remote].
  rewrite IH by (intros s' Hs'; apply H; by apply list_elem_of_further).
  destruct (same_domain s (domain data_set)) eqn:Hd; [| done].
  apply same_domain_true in Hd.
  by rewrite (H s (list_elem_of_here _ _) Hd).
Qed.

Lemma merge_remote_domains t data_set l :
  (get_domain <$> merge_remote t data_set l) `sublist_of` (get_domain <$> l).
Proof.
  induction l as [|s r IH]; [done |]. cbn [merge_remote]. rewrite fmap_cons.
  destruct (same_domain s (domain data_set)); [| by apply sublist_skip].
  destruct (gt t (get_m_date s)); [| by apply sublist_skip].
  destruct (is_deleted data_set); [by apply sublist_cons |].
  rewrite fmap_cons. by apply sublist_skip.
Qed.

Lemma merge_entry_one_per_domain now data_set t l :
  one_per_domain l -> one_per_domain (merge_entry now data_set t l).
Proof.
  unfold one_per_domain, merge_entry. intros Hl.
  destruct (has_domain (domain data_set) l) eqn:Hh.
  - rewrite app_nil_r. eapply sublist_NoDup; [done | apply merge_remote_domains].
  - rewrite (merge_remote_absent _ _ _ Hh), fmap_app. apply NoDup_app.
    split; [done |]. split; [| apply NoDup_singleton].
    intros x Hx ->%list_elem_of_singleton.
    by apply has_domain_false in Hh.
Qed.

Lemma merge_all_one_per_domain now remote :
  forall l, one_per_domain l -> one_per_domain (merge_all now remote l).
Proof.
  induction remote as [|d rest IH]; intros l Hl; cbn [merge_all]; [done |].
  destruct (strptime (mDate d)); [| done].
  by apply IH, merge_entry_one_per_domain.
Qed.

Lemma ge_not_gt a b : ge b a = true -> gt a b = false.
Proof.
  unfold gt, ge. rewrite (cmp_antisym b a). by destruct (cmp b a).
Qed.

Lemma fmap_fixed {A} (f : A -> A) (l : list A) :
  (forall x, x ∈ l -> f x = x) -> f <$> l = l.
Proof.
  induction l as [|a l IH]; [done |]. intros H. rewrite fmap_cons.
  rewrite (H a (list_elem_of_here _ _)), IH; [done |].
  intros x Hx. apply H. by apply list_elem_of_further.
Qed.

Lemma has_domain_of L l : L ∈ l -> has_domain (get_domain L) l = true.
Proof. intros HL. apply has_domain_true. by exists L. Qed.

(** C5. Import, merge step, incoming strictly newer: if the collection holds
    at most one record per domain, [L] is the local record of the entry's
    domain and the entry's date [t] is strictly newer than [L]'s, then after
    the step the domain is absent when the entry is a tombstone, and
    otherwise its one record carries the entry's date and fields and is
    marked synced. *)
Theorem incoming_newer_wins now data_set t u l rd L :
  one_per_domain l -> L ∈ l -> get_domain L = domain data_set ->
  strptime (mDate data_set) = Some t -> gt t (get_m_date L) = true ->
  exists u' l',
    update_entry now data_set u (mk_manager l rd) = (Returns u', mk_manager l' rd) /\
    (if is_deleted data_set
     then forall s, s ∈ l' -> get_domain s <> domain data_set
     else record_of data_set t ∈ l' /\
          forall s, s ∈ l' -> get_domain s = domain data_set ->
                    s = record_of data_set t).
Proof.
  intros Hinv HL Hdom Ht Hgt.
  assert (has_domain (domain data_set) l = true) as Hh
    by (rewrite <- Hdom; by apply has_domain_of).
  rewrite (update_entry_run _ _ _ _ _ _ Ht). eexists _, _. split; [done |].
  unfold merge_entry. rewrite Hh, app_nil_r.
  assert (forall s, s ∈ l -> get_domain s = domain data_set -> s = L) as Huniq.
  { intros s Hs Hd. apply (unique_by_domain l); [done .. | congruence]. }
  assert (set_synced (loaded L t data_set) true = record_of data_set t) as HR.
  { unfold set_synced, loaded, record_of. cbn. by rewrite Hdom. }
  destruct (is_deleted data_set) eqn:Hdel.
  - intros s [[Hs [Hc | Hc]] | [? _]]%merge_remote_elem Hd; [done | | congruence].
    rewrite (Huniq s Hs Hd) in Hc. congruence.
  - split.
    + apply merge_remote_elem. right. split; [done |]. by exists L.
    + intros s [[Hs [Hc | Hc]] | (_ & s' & Hs' & Hd' & _ & ->)]%merge_remote_elem Hd.
      * done.
      * rewrite (Huniq s Hs Hd) in Hc. congruence.
      * by rewrite (Huniq s' Hs' Hd').
Qed.

(** C6. Merge step, incoming not newer (ties included): if [L] is a local
    record of the entry's domain and the entry's date is not after [L]'s, then
    after the merge step of the import, and after that of
    [load_settings_from_file], [L] is still in the collection with all its
    fields and its synced flag; with at most one record per domain the whole
    collection is unchanged. *)
Theorem local_not_older_stays now synced data_set t u l rd L :
  L ∈ l -> get_domain L = domain data_set ->
  strptime (mDate data_set) = Some t -> ge (get_m_date L) t = true ->
  (exists u' l',
     update_entry now data_set u (mk_manager l rd) = (Returns u', mk_manager l' rd) /\
     L ∈ l' /\ (one_per_domain l -> l' = l)) /\
  (exists l',
     load_entry now synced data_set (mk_manager l rd) = (Returns tt, mk_manager l' rd) /\
     L ∈ l' /\ (one_per_domain l -> l' = l)).
Proof.
  intros HL Hdom Ht Hge%ge_not_gt.
  assert (has_domain (domain data_set) l = true) as Hh
    by (rewrite <- Hdom; by apply has_domain_of).
  assert (one_per_domain l -> forall s, s ∈ l ->
          get_domain s = domain data_set -> gt t (get_m_date s) = false) as Hall.
  { intros Hinv s Hs Hd.
    by rewrite (unique_by_domain l s L Hinv Hs HL) by congruence. }
  split.
  - rewrite (update_entry_run _ _ _ _ _ _ Ht). eexists _, _. split; [done |].
    unfold merge_entry. rewrite Hh, app_nil_r.
    split.
    + apply merge_remote_elem. left. split; [done | by right].
    + intros Hinv. apply merge_remote_fixed. by apply Hall.
  - rewrite (load_entry_run _ _ _ _ _ _ Ht). eexists. split; [done |].
    unfold load_merge. rewrite Hh, app_nil_r.
    split.
    + apply list_elem_of_fmap. exists L. split; [| done].
      unfold load_one. by rewrite Hge, andb_false_r.
    + intros Hinv. apply fmap_fixed. intros s Hs. unfold load_one.
      destruct (same_domain s (domain data_set)) eqn:Hd; [| done].
      apply same_domain_true in Hd. by rewrite (Hall Hinv s Hs Hd).
Qed.

(** ** The returned flag *)

Lemma local_wins_true t dom l :
  local_wins t dom l = true <->
  exists s, s ∈ l /\ get_domain s = dom /\ gt t (get_m_date s) = false.
Proof.
  unfold local_wins. rewrite existsb_exists. split.
  - intros (s & Hs & [Hd Hg%negb_true_iff]%andb_true_iff). exists s.
    split; [by apply list_elem_of_In |]. split; [by apply same_domain_true | done].
  - intros (s & Hs & Hd & Hg). exists s. split; [by apply list_elem_of_In |].
    apply andb_true_iff. split; [by apply same_domain_true | by apply negb_true_iff].
Qed.

Lemma merge_entry_keeps now data_set t l s :
  s ∈ l -> get_domain s <> domain data_set \/ gt t (get_m_date s) = false ->
  s ∈ merge_entry now data_set t l.
Proof.
  intros Hs Hc. unfold merge_entry. apply elem_of_app. left.
  apply merge_remote_elem. left. by split.
Qed.

Lemma merge_all_keeps now s remote :
  (forall d, d ∈ remote -> domain d <> get_domain s) ->
  forall l, s ∈ l -> s ∈ merge_all now remote l.
Proof.
  induction remote as [|d rest IH]; intros Hr l Hs; cbn [merge_all]; [done |].
  destruct (strptime (mDate d)); [| done].
  apply IH; [intros d' Hd'; apply Hr; by apply list_elem_of_further |].
  apply merge_entry_keeps; [done |]. left. intros Heq.
  by apply (Hr d (list_elem_of_here _ _)).
Qed.

Lemma lost_all_witness now remote :
  all_parse remote -> NoDup (domain <$> remote) ->
  forall l, lost_all now remote l = true ->
    exists s d, s ∈ merge_all now remote l /\ d ∈ remote /\
                counterpart_not_newer s d = true.
Proof.
  induction 1 as [|d rest [t Ht] _ IH]; intros Hnd l; cbn [lost_all merge_all];
    [done |].
  rewrite fmap_cons, NoDup_cons in Hnd. destruct Hnd as [Hd Hnd].
  rewrite Ht. intros [Hw | Hw]%orb_true_iff.
  - apply local_wins_true in Hw. destruct Hw as (s & Hs & Hdom & Hg).
    exists s, d. split; [| split; [apply list_elem_of_here |]].
    + apply merge_all_keeps.
      * intros d' Hd' Heq. apply Hd. rewrite <- Hdom, <- Heq.
        by apply list_elem_of_fmap_2.
      * apply merge_entry_keeps; [done | by right].
    + unfold counterpart_not_newer. rewrite Ht.
      apply andb_true_iff. split; [by apply same_domain_true | by apply not_gt_ge].
  - destruct (IH Hnd _ Hw) as (s & d' & Hs & Hd' & Hc).
    exists s, d'. split; [done |]. split; [by apply list_elem_of_further | done].
Qed.

Lemma counterpart_not_newer_true s d :
  counterpart_not_newer s d = true <->
  exists t, domain d = get_domain s /\ strptime (mDate d) = Some t /\
            ge (get_m_date s) t = true.
Proof.
  unfold counterpart_not_newer. rewrite andb_true_iff, same_domain_true. split.
  - intros [Hd Hg]. destruct (strptime (mDate d)) as [t|]; [| done]. by exists t.
  - intros (t & Hd & -> & Hg). done.
Qed.

Lemma needs_export_true remote s :
  needs_export remote s = true <->
  (forall d, d ∈ remote -> domain d <> get_domain s) \/
  (exists d t, d ∈ remote /\ domain d = get_domain s /\
               strptime (mDate d) = Some t /\ ge (get_m_date s) t = true).
Proof.
  unfold needs_export. rewrite orb_true_iff, negb_true_iff.
  rewrite <- not_true_iff_false, !existsb_exists. split.
  - intros [Hn | (d & Hd & Hc)].
    + left. intros d Hd Heq. apply Hn. exists d.
      split; [by apply list_elem_of_In | by apply same_domain_true].
    + right. apply counterpart_not_newer_true in Hc. destruct Hc as (t & Hc).
      exists d, t. split; [by apply list_elem_of_In | done].
  - intros [Hn | (d & t & Hd & Hc)].
    + left. intros (d & Hd & Heq%same_domain_true).
      by apply (Hn d); [apply list_elem_of_In |].
    + right. exists d. split; [by apply list_elem_of_In |].
      apply counterpart_not_newer_true. by exists t.
Qed.

Lemma export_needed_spec remote l :
  existsb (needs_export remote) l = true <-> export_needed remote l.
Proof.
  unfold export_needed. rewrite existsb_exists. split.
  - intros (s & Hs & Hn%needs_export_true). exists s.
    split; [by apply list_elem_of_In | done].
  - intros (s & Hs & Hn). exists s. split; [by apply list_elem_of_In |].
    by apply needs_export_true.
Qed.

(** Without a condition on the payload: the flag is that of the first pass
    or that of the second. *)
Lemma update_from_export_data_flag_general password data now remote l rd :
  decode_blob password data = Returns (JArray remote) ->
  all_parse remote ->
  exists b,
    update_from_export_data password data now (mk_manager l rd) =
      (Returns b, mk_manager (merge_all now remote l) (Some (JArray remote))) /\
    (b = true <->
     lost_all now remote l = true \/ export_needed remote (merge_all now remote l)).
Proof.
  intros Hdec Hp. rewrite (update_from_export_data_run _ _ _ _ _ _ Hdec Hp).
  eexists. split; [done |]. by rewrite orb_true_iff, export_needed_spec.
Qed.

(** C7, amended. When every date of the payload parses and the payload has
    at most one entry per domain, [update_from_export_data] returns, and it
    returns true if and only if, after merging, some local record has no
    entry of its domain in the payload or is not strictly older than an entry
    of its domain. *)
Theorem update_from_export_data_flag password data now remote m :
  decode_blob password data = Returns (JArray remote) ->
  all_parse remote ->
  NoDup (domain <$> remote) ->
  exists b l',
    update_from_export_data password data now m =
      (Returns b, mk_manager l' (Some (JArray remote))) /\
    (b = true <-> export_needed remote l').
Proof.
  intros Hdec Hp Hnd. destruct m as [l rd].
  rewrite (update_from_export_data_run _ _ _ _ _ _ Hdec Hp).
  eexists _, _. split; [done |].
  rewrite orb_true_iff, export_needed_spec. split; [| by right].
  intros [Hlost | Hscan]; [| done].
  destruct (lost_all_witness now remote Hp Hnd l Hlost) as (s & d & Hs & Hd & Hc).
  exists s. split; [done |]. right.
  apply counterpart_not_newer_true in Hc. destruct Hc as (t & Hc).
  by exists d, t.
Qed.

(** ** Export followed by import *)

Lemma existsb_eqb_true x (ys : list string) :
  existsb (String.eqb x) ys = true <-> x ∈ ys.
Proof.
  rewrite existsb_exists. split.
  - intros (y & Hy & ->%String.eqb_eq). by apply list_elem_of_In.
  - intros Hx. exists x. split; [by apply list_elem_of_In | apply String.eqb_refl].
Qed.

Lemma dump_list_to_dict (l : list PasswordSetting) :
  dump_list (to_dict <$> l) = Returns (dumped <$> l).
Proof.
  induction l as [|s r IH]; [done |]. rewrite !fmap_cons. cbn [dump_list].
  by rewrite IH.
Qed.

Lemma export_entries_quiet now entries :
  forall settings_list,
    Forall (fun d => is_deleted d = false /\ domain d ∈ (domain <$> settings_list))
           entries ->
    export_entries now settings_list entries = Returns settings_list.
Proof.
  induction entries as [|d rest IH]; intros sl H; [done |].
  apply Forall_cons in H. destruct H as [[Hdel Hin] Hrest].
  cbn [export_entries]. unfold export_entry. rewrite Hdel.
  cbn [mbind result_bind mret result_ret].
  apply existsb_eqb_true in Hin. rewrite Hin. cbn [negb]. by apply IH.
Qed.

Lemma domain_to_dict (l : list PasswordSetting) :
  domain <$> (to_dict <$> l) = get_domain <$> l.
Proof. by rewrite <- list_fmap_compose. Qed.

Lemma export_list_quiet now l rd :
  quiet_snapshot l rd ->
  export_list now (mk_manager l rd) = (Returns (to_dict <$> l), mk_manager l rd).
Proof.
  intros Hq. unfold export_list, get_settings_as_list. run.
  destruct rd as [[entries | ? ?] |]; [| done | done].
  run. rewrite export_entries_quiet; [done |]. by rewrite domain_to_dict.
Qed.

Lemma get_export_data_quiet password now l rd :
  quiet_snapshot l rd ->
  get_export_data password now (mk_manager l rd) =
  (Returns (b64encode (encrypt password (compress (Utf8 (JArray (dumped <$> l)))))),
   mk_manager l rd).
Proof.
  intros Hq. unfold get_export_data. run. rewrite (export_list_quiet _ _ _ Hq).
  unfold json_dumps. rewrite dump_list_to_dict. by run.
Qed.

Lemma decode_blob_encoded password doc :
  decode_blob password (b64encode (encrypt password (compress (Utf8 doc)))) =
  Returns doc.
Proof.
  unfold decode_blob, b64encode, encrypt, compress. cbn.
  by rewrite String.eqb_refl.
Qed.

Lemma dumped_parses s :
  valid (get_m_date s) = true ->
  strptime (mDate (dumped s)) = Some (truncate (get_m_date s)).
Proof. intros Hv. by apply strptime_strftime. Qed.

Lemma merge_entry_own_dump now l s :
  one_per_domain l -> s ∈ l -> valid (get_m_date s) = true ->
  merge_entry now (dumped s) (truncate (get_m_date s)) l = l /\
  local_wins (truncate (get_m_date s)) (domain (dumped s)) l = true.
Proof.
  intros Hinv Hs Hv.
  assert (gt (truncate (get_m_date s)) (get_m_date s) = false) as Hg.
  { apply truncate_not_gt. apply valid_bounds in Hv. lia. }
  split.
  - unfold merge_entry. cbn [dumped domain].
    rewrite (has_domain_of s l Hs), app_nil_r.
    apply merge_remote_fixed. intros s' Hs' Hd.
    by rewrite (unique_by_domain l s' s Hinv Hs' Hs Hd).
  - apply local_wins_true. by exists s.
Qed.

Lemma merge_all_own_dumps now l :
  one_per_domain l -> Forall (fun s => valid (get_m_date s) = true) l ->
  forall l0, l0 ⊆ l ->
    merge_all now (dumped <$> l0) l = l /\
    lost_all now (dumped <$> l0) l = match l0 with [] => false | _ => true end.
Proof.
  intros Hinv Hv. induction l0 as [|s r IH]; intros Hsub; [done |].
  assert (s ∈ l) as Hs by (apply Hsub, list_elem_of_here).
  assert (valid (get_m_date s) = true) as Hvs.
  { by apply (proj1 (Forall_forall _ l) Hv). }
  rewrite fmap_cons. cbn [merge_all lost_all]. rewrite (dumped_parses s Hvs).
  destruct (merge_entry_own_dump now l s Hinv Hs Hvs) as [-> ->].
  split; [| done]. apply IH. intros x Hx. apply Hsub. by apply list_elem_of_further.
Qed.

Lemma all_parse_dumped l :
  Forall (fun s => valid (get_m_date s) = true) l -> all_parse (dumped <$> l).
Proof.
  intros Hv. apply Forall_fmap. eapply Forall_impl; [done |].
  intros s Hs. cbn. rewrite (strptime_strftime _ Hs). by eexists.
Qed.

(** C1, amended. For a store with at most one record per domain whose
    retained snapshot is passed over by the export, [get_export_data] returns
    a blob and leaves the store as it is; [update_from_export_data] on that
    blob, in a second store with the same collection, leaves the collection
    as it is, so both collections stay equal, and returns true unless the
    collection is empty. *)
Theorem export_import_round_trip password now now' l rd rd' :
  one_per_domain l ->
  Forall (fun s => valid (get_m_date s) = true) l ->
  quiet_snapshot l rd ->
  exists blob remote,
    get_export_data password now (mk_manager l rd) =
      (Returns blob, mk_manager l rd) /\
    update_from_export_data password blob now' (mk_manager l rd') =
      (Returns (match l with [] => false | _ => true end),
       mk_manager l (Some (JArray remote))).
Proof.
  intros Hinv Hv Hq. eexists _, _.
  split; [by apply get_export_data_quiet |].
  rewrite (update_from_export_data_run _ _ _ _ _ _
             (decode_blob_encoded password _) (all_parse_dumped l Hv)).
  destruct (merge_all_own_dumps now' l Hinv Hv l) as [-> ->]; [done |].
  by destruct l.
Qed.

(** ** The invariant of the collection *)

Lemma find_none_has_domain dom l :
  List.find (fun s => same_domain s dom) l = None -> has_domain dom l = false.
Proof.
  induction l as [|s r IH]; [done |]. cbn [List.find has_domain existsb].
  destruct (same_domain s dom); [done |]. apply IH.
Qed.

Lemma one_per_domain_snoc l s :
  one_per_domain l -> has_domain (get_domain s) l = false ->
  one_per_domain (l ++ [s]).
Proof.
  unfold one_per_domain. intros Hl Hh%has_domain_false.
  rewrite fmap_app. apply NoDup_app. split; [done |].
  split; [| apply NoDup_singleton].
  by intros x Hx ->%list_elem_of_singleton.
Qed.

Lemma without_domain_sublist dom l : without_domain dom l `sublist_of` l.
Proof.
  induction l as [|s r IH]; [done |]. cbn [without_domain].
  destruct (same_domain s dom); [by apply sublist_cons | by apply sublist_skip].
Qed.

Lemma without_domain_clean dom l : has_domain dom (without_domain dom l) = false.
Proof.
  induction l as [|s r IH]; [done |]. cbn [without_domain].
  destruct (same_domain s dom) eqn:Hd; [done |].
  cbn [has_domain existsb]. by rewrite Hd.
Qed.

Lemma save_pass_absent dom l : has_domain dom l = false -> save_pass dom l = l.
Proof.
  induction l as [|s r IH]; [done |]. cbn [has_domain existsb save_pass].
  intros [-> Hr]%orb_false_iff. f_equal. by apply IH.
Qed.

Lemma without_domain_absent dom l : has_domain dom l = false -> without_domain dom l = l.
Proof.
  induction l as [|s r IH]; [done |]. cbn [has_domain existsb without_domain].
  intros [-> Hr]%orb_false_iff. f_equal. by apply IH.
Qed.

Lemma save_pass_one_per_domain dom l :
  one_per_domain l -> save_pass dom l = without_domain dom l.
Proof.
  unfold one_per_domain. induction l as [|s r IH]; [done |].
  rewrite fmap_cons, NoDup_cons. intros [Hs Hr].
  cbn [save_pass without_domain].
  destruct (same_domain s dom) eqn:Hd; [| by rewrite IH].
  apply same_domain_true in Hd. rewrite Hd in Hs. apply has_domain_false in Hs.
  rewrite (without_domain_absent _ _ Hs).
  destruct r as [|skipped r']; [done |]. f_equal.
  apply save_pass_absent.
  cbn [has_domain existsb] in Hs. by apply orb_false_iff in Hs as [_ ?].
Qed.

Lemma one_per_domain_sublist l k :
  k `sublist_of` l -> one_per_domain l -> one_per_domain k.
Proof.
  unfold one_per_domain. intros Hs Hl.
  eapply sublist_NoDup; [done | by apply fmap_sublist].
Qed.

Lemma load_one_domain t data_set synced s :
  get_domain (load_one t data_set synced s) = get_domain s.
Proof.
  unfold load_one.
  by destruct (same_domain s (domain data_set) && gt t (get_m_date s)).
Qed.

Lemma load_merge_one_per_domain now data_set synced t l :
  one_per_domain l -> one_per_domain (load_merge now data_set synced t l).
Proof.
  intros Hl. unfold load_merge.
  assert (get_domain <$> (load_one t data_set synced <$> l) = get_domain <$> l) as Hdom.
  { rewrite <- list_fmap_compose. apply list_fmap_ext.
    intros i s _. apply load_one_domain. }
  destruct (has_domain (domain data_set) l) eqn:Hh.
  - rewrite app_nil_r. unfold one_per_domain. by rewrite Hdom.
  - unfold one_per_domain. rewrite fmap_app, Hdom. apply NoDup_app.
    split; [done |]. split; [| apply NoDup_singleton].
    intros x Hx ->%list_elem_of_singleton. by apply has_domain_false in Hh.
Qed.

Lemma load_entries_one_per_domain now synced saved :
  forall m, one_per_domain (settings m) ->
    one_per_domain (settings (load_entries now synced saved m).2).
Proof.
  induction saved as [|d rest IH]; intros [l rd] Hl; cbn [load_entries]; [done |].
  run. destruct (strptime (mDate d)) as [t|] eqn:Ht.
  - rewrite (load_entry_run _ _ _ _ _ _ Ht). apply IH.
    by apply load_merge_one_per_domain.
  - by rewrite (load_entry_unparsed _ _ _ _ Ht).
Qed.

Lemma update_entries_one_per_domain now remote :
  forall u m, one_per_domain (settings m) ->
    one_per_domain (settings (update_entries now remote u m).2).
Proof.
  induction remote as [|d rest IH]; intros u [l rd] Hl; cbn [update_entries]; [done |].
  run. destruct (strptime (mDate d)) as [t|] eqn:Ht.
  - rewrite (update_entry_run _ _ _ _ _ _ Ht). apply IH.
    by apply merge_entry_one_per_domain.
  - by rewrite (update_entry_unparsed _ _ _ _ Ht).
Qed.

(** C8. Each of [get_setting], [save_setting], [delete_setting],
    [load_settings_from_file] and [update_from_export_data], started on a
    collection with at most one record per domain, ends, whether it returns
    or raises, on a collection with at most one record per domain. *)
Theorem operations_keep_one_per_domain m :
  one_per_domain (settings m) ->
  (forall dom now, one_per_domain (settings (get_setting dom now m).2)) /\
  (forall setting, one_per_domain (settings (save_setting setting m).2)) /\
  (forall setting, one_per_domain (settings (delete_setting setting m).2)) /\
  (forall password file now,
     one_per_domain (settings (load_settings_from_file password file now m).2)) /\
  (forall password data now,
     one_per_domain (settings (update_from_export_data password data now m).2)).
Proof.
  destruct m as [l rd]. cbn [settings]. intros Hl. repeat split.
  - intros dom now. unfold get_setting. run.
    destruct (List.find _ l) eqn:Hf; [done |]. run.
    apply one_per_domain_snoc; [done |]. by apply find_none_has_domain.
  - intros setting. unfold save_setting. run.
    pose proof (save_setting_for_run setting rd (length l) l []) as H.
    cbn [length app] in H. rewrite H by done. run.
    rewrite (save_pass_one_per_domain _ _ Hl).
    apply one_per_domain_snoc; [| apply without_domain_clean].
    by eapply one_per_domain_sublist; [apply without_domain_sublist |].
  - intros setting. unfold delete_setting. run.
    pose proof (delete_setting_while_run setting rd l (length l) []) as H.
    cbn [length app] in H. rewrite H by done.
    by eapply one_per_domain_sublist; [apply without_domain_sublist |].
  - intros password file now. unfold load_settings_from_file.
    destruct file as [content |]; [| done]. run.
    destruct (decode_file password content) as [[entries | saved synced] | e];
      [done | | done].
    by apply load_entries_one_per_domain.
  - intros password data now. unfold update_from_export_data. run.
    destruct (decode_blob password data) as [[remote | saved synced] | e];
      [| done | done].
    run.
    pose proof (update_entries_one_per_domain now remote false
                  (mk_manager l (Some (JArray remote))) Hl) as H.
    destruct (update_entries now remote false _) as [[u | e] m']; [| done].
    run. by destruct (scan_settings _ _ _).
Qed.

(** ** The missing file, and the frame of the export *)

(** C9. When the settings file does not exist, [load_settings_from_file]
    returns without an error and leaves the manager as it was, for every
    password and every state. *)
Theorem missing_file_is_no_op password now m :
  load_settings_from_file password None now m = (Returns tt, m).
Proof. reflexivity. Qed.

(** C10. [get_export_data] leaves the settings and the retained remote data
    as they were, whether it returns a blob or raises. *)
Theorem get_export_data_frame password now m :
  (get_export_data password now m).2 = m.
Proof.
  destruct m as [l rd]. unfold get_export_data, export_list, get_settings_as_list.
  run. destruct rd as [[entries | saved synced] |]; run; [| done |].
  - destruct (export_entries now (to_dict <$> l) entries); run; [| done].
    by destruct (json_dumps _).
  - by destruct (json_dumps _).
Qed.

(** ** Concrete runs *)

(** X16. In general: an entry of an unknown domain is appended at the end as
    a live, synced record, whatever its ['deleted'] flag says, and the merge
    step leaves [update_remote] as it was. *)
Lemma unknown_domain_is_inserted now data_set t u l rd :
  has_domain (domain data_set) l = false ->
  strptime (mDate data_set) = Some t ->
  update_entry now data_set u (mk_manager l rd) =
  (Returns u, mk_manager (l ++ [inserted now data_set t]) rd).
Proof.
  intros Hh Ht. rewrite (update_entry_run _ _ _ _ _ _ Ht). unfold merge_entry.
  rewrite Hh, (merge_remote_absent _ _ _ Hh). f_equal. f_equal.
  unfold local_wins. unfold has_domain in Hh.
  destruct u; [done |]. cbn [orb].
  apply not_true_iff_false. intros (s & Hs & Hc%andb_true_iff)%existsb_exists.
  apply not_true_iff_false in Hh. apply Hh, existsb_exists.
  exists s. by destruct Hc.
Qed.

(** C2. The code at a tombstone for a domain without a local record: the
    import of the payload [[{a.com, deleted}]] into an empty collection
    appends a live, synced record for a.com instead of dropping the entry. *)
Theorem tombstone_for_unknown_domain_is_inserted :
  update_from_export_data "pw"
    (sample_blob "pw" [tombstone "a.com" "2015-01-05T12:00:00"])
    sample_now init =
  (Returns true,
   mk_manager [mk_setting "a.com" (noon 5) true []]
              (Some (JArray [tombstone "a.com" "2015-01-05T12:00:00"]))).
Proof. reflexivity. Qed.

(** C3. The code at a tombstone of another domain: after the import of a
    tombstone for a.com has removed a.com, the export replaces the outgoing
    entry of b.com, which is older, by that tombstone. *)
Theorem tombstone_overwrites_other_domain :
  let remote := [tombstone "a.com" "2015-01-05T12:00:00"] in
  let before := mk_manager [sample_setting "a.com" 1; sample_setting "b.com" 1] None in
  let m := mk_manager [sample_setting "b.com" 1] (Some (JArray remote)) in
  (update_from_export_data "pw" (sample_blob "pw" remote) sample_now before).2 = m /\
  export_list sample_now m =
    (Returns [of_json (tombstone "a.com" "2015-01-05T12:00:00")], m).
Proof. split; reflexivity. Qed.

(** C4. The code at a synthesized tombstone: after an import has brought
    a.com and [delete_setting] has removed it, the export appends a tombstone
    whose ['mDate'] is a [datetime] object, not a string, and [json.dumps]
    raises a [TypeError]: no payload is produced. *)
Theorem synthesized_tombstone_is_not_serializable :
  let remote := [live_entry "a.com" "2015-01-05T12:00:00"] in
  let imported := (update_from_export_data "pw" (sample_blob "pw" remote)
                     sample_now init).2 in
  let m := (delete_setting (sample_setting "a.com" 5) imported).2 in
  m = mk_manager [] (Some (JArray remote)) /\
  export_list sample_now m =
    (Returns [mk_dict "a.com" (PyDatetime sample_now) (Some true) []], m) /\
  get_export_data "pw" sample_now m = (Raises TypeError, m).
Proof. repeat split; reflexivity. Qed.

(** Against C1 as stated: the export of a store holding one record, imported
    into a store with the same collection, returns true. *)
Lemma round_trip_returns_true :
  let m := mk_manager [sample_setting "a.com" 1] None in
  exists blob,
    get_export_data "pw" sample_now m = (Returns blob, m) /\
    (update_from_export_data "pw" blob sample_now m).1 = Returns true.
Proof. eexists. split; reflexivity. Qed.

(** Against C7 as stated: with two entries of one domain, the first not
    newer than the local record and the second a newer tombstone, the import
    returns true although no local record is left after merging. *)
Lemma flag_set_though_nothing_is_left :
  let remote := [live_entry "a.com" "2015-01-01T12:00:00";
                 tombstone "a.com" "2015-01-05T12:00:00"] in
  update_from_export_data "pw" (sample_blob "pw" remote) sample_now
    (mk_manager [sample_setting "a.com" 3] None) =
    (Returns true, mk_manager [] (Some (JArray remote))) /\
  ~ export_needed remote [].
Proof.
  split; [reflexivity |]. by intros (s & Hs%elem_of_nil & _).
Qed.

(** ** Instances of the theorems above *)

Lemma sample_pair_one_per_domain :
  one_per_domain [sample_setting "a.com" 1; sample_setting "b.com" 2].
Proof.
  unfold one_per_domain. cbn. apply NoDup_cons_2; [| apply NoDup_singleton].
  by intros ?%list_elem_of_singleton.
Defined.

Lemma export_import_round_trip_witness :
  let l := [sample_setting "a.com" 1; sample_setting "b.com" 2] in
  let rd := Some (JArray [live_entry "a.com" "2015-01-01T09:00:00"]) in
  one_per_domain l /\
  Forall (fun s => valid (get_m_date s) = true) l /\
  quiet_snapshot l rd /\
  exists blob remote,
    get_export_data "pw" sample_now (mk_manager l rd) =
      (Returns blob, mk_manager l rd) /\
    update_from_export_data "pw" blob sample_now (mk_manager l None) =
      (Returns true, mk_manager l (Some (JArray remote))).
Proof.
  intros l rd.
  assert (one_per_domain l) as H1 by apply sample_pair_one_per_domain.
  assert (Forall (fun s => valid (get_m_date s) = true) l) as H2
    by (repeat constructor).
  assert (quiet_snapshot l rd) as H3.
  { repeat constructor. }
  repeat split; [done .. |].
  apply (export_import_round_trip "pw" sample_now sample_now l rd None H1 H2 H3).
Defined.

Lemma incoming_newer_wins_witness :
  let l := [sample_setting "a.com" 1] in
  let data_set := live_entry "a.com" "2015-01-05T12:00:00" in
  one_per_domain l /\ sample_setting "a.com" 1 ∈ l /\
  get_domain (sample_setting "a.com" 1) = domain data_set /\
  strptime (mDate data_set) = Some (noon 5) /\
  gt (noon 5) (get_m_date (sample_setting "a.com" 1)) = true /\
  exists u' l',
    update_entry sample_now data_set false (mk_manager l None) =
      (Returns u', mk_manager l' None) /\
    record_of data_set (noon 5) ∈ l' /\
    forall s, s ∈ l' -> get_domain s = domain data_set ->
              s = record_of data_set (noon 5).
Proof.
  intros l data_set.
  assert (one_per_domain l) as H1 by apply NoDup_singleton.
  assert (sample_setting "a.com" 1 ∈ l) as H2 by apply list_elem_of_here.
  repeat split; [done .. |].
  apply (incoming_newer_wins sample_now data_set (noon 5) false l None
           (sample_setting "a.com" 1) H1 H2 eq_refl eq_refl eq_refl).
Defined.

Lemma local_not_older_stays_witness :
  let l := [sample_setting "a.com" 5] in
  let data_set := live_entry "a.com" "2015-01-05T12:00:00" in
  sample_setting "a.com" 5 ∈ l /\
  get_domain (sample_setting "a.com" 5) = domain data_set /\
  strptime (mDate data_set) = Some (noon 5) /\
  ge (get_m_date (sample_setting "a.com" 5)) (noon 5) = true /\
  (exists u' l',
     update_entry sample_now data_set false (mk_manager l None) =
       (Returns u', mk_manager l' None) /\
     sample_setting "a.com" 5 ∈ l' /\ (one_per_domain l -> l' = l)) /\
  (exists l',
     load_entry sample_now ["a.com"] data_set (mk_manager l None) =
       (Returns tt, mk_manager l' None) /\
     sample_setting "a.com" 5 ∈ l' /\ (one_per_domain l -> l' = l)).
Proof.
  intros l data_set.
  assert (sample_setting "a.com" 5 ∈ l) as H1 by apply list_elem_of_here.
  split; [done |]. split; [done |]. split; [done |]. split; [done |].
  apply (local_not_older_stays sample_now ["a.com"] data_set (noon 5) false l None
           (sample_setting "a.com" 5) H1 eq_refl eq_refl eq_refl).
Defined.

Lemma update_from_export_data_flag_witness :
  let remote := [live_entry "a.com" "2015-01-01T12:00:00";
                 tombstone "c.com" "2015-01-02T12:00:00"] in
  let m := mk_manager [sample_setting "a.com" 3; sample_setting "b.com" 2] None in
  decode_blob "pw" (sample_blob "pw" remote) = Returns (JArray remote) /\
  all_parse remote /\
  NoDup (domain <$> remote) /\
  exists b l',
    update_from_export_data "pw" (sample_blob "pw" remote) sample_now m =
      (Returns b, mk_manager l' (Some (JArray remote))) /\
    (b = true <-> export_needed remote l').
Proof.
  intros remote m.
  assert (all_parse remote) as H2.
  { repeat constructor; by eexists. }
  assert (NoDup (domain <$> remote)) as H3.
  { cbn. apply NoDup_cons_2; [| apply NoDup_singleton].
    by intros ?%list_elem_of_singleton. }
  repeat split; [done .. |].
  apply (update_from_export_data_flag "pw" (sample_blob "pw" remote) sample_now
           remote m eq_refl H2 H3).
Defined.

Lemma operations_keep_one_per_domain_witness :
  let m := mk_manager [sample_setting "a.com" 1; sample_setting "b.com" 2] None in
  one_per_domain (settings m) /\
  (forall dom now, one_per_domain (settings (get_setting dom now m).2)) /\
  (forall setting, one_per_domain (settings (save_setting setting m).2)) /\
  (forall setting, one_per_domain (settings (delete_setting setting m).2)) /\
  (forall password file now,
     one_per_domain (settings (load_settings_from_file password file now m).2)) /\
  (forall password data now,
     one_per_domain (settings (update_from_export_data password data now m).2)).
Proof.
  intros m.
  assert (one_per_domain (settings m)) as H by apply sample_pair_one_per_domain.
  split; [done |]. apply (operations_keep_one_per_domain m H).
Defined.

(** * Further properties of the manager *)

(** ** The order of datetimes is transitive *)

Section DatetimeOrder.
Local Open Scope Z_scope.

Lemma lex_Gt x y c : lex (x ?= y) c = Gt <-> x > y \/ (x = y /\ c = Gt).
Proof.
  destruct (Z.compare_spec x y) as [E | E | E]; cbn [lex].
  - split; [by right | intros [? | [_ ?]]; [lia | done]].
  - split; [done | intros [? | [? ?]]; lia].
  - split; [intros _; lia | done].
Qed.

Lemma gt_true a b :
  gt a b = true <->
  year a > year b \/ (year a = year b /\
  (month a > month b \/ (month a = month b /\
  (day a > day b \/ (day a = day b /\
  (hour a > hour b \/ (hour a = hour b /\
  (minute a > minute b \/ (minute a = minute b /\
  (second a > second b \/ (second a = second b /\
   microsecond a > microsecond b))))))))))).
Proof.
  assert (gt a b = true <-> cmp a b = Gt) as ->
    by (unfold gt; destruct (cmp a b); split; congruence).
  unfold cmp. by rewrite !lex_Gt.
Qed.

Lemma gt_trans a b c : gt a b = true -> gt b c = true -> gt a c = true.
Proof. rewrite !gt_true. lia. Qed.

Lemma not_gt_trans t m t' :
  gt t m = false -> gt t' m = true -> gt t t' = false.
Proof.
  intros H1 H2. apply not_true_iff_false. intros H3.
  apply not_true_iff_false in H1. apply H1. by apply (gt_trans t t' m).
Qed.

End DatetimeOrder.

(** ** Looking up, saving and deleting settings *)

Lemma find_has_domain dom l s :
  List.find (fun x => same_domain x dom) l = Some s ->
  s ∈ l /\ get_domain s = dom.
Proof.
  intros [Hs Hd]%find_some. split; [by apply list_elem_of_In |].
  by apply same_domain_true.
Qed.

Lemma find_app_absent dom l s :
  has_domain dom l = false -> get_domain s = dom ->
  List.find (fun x => same_domain x dom) (l ++ [s]) = Some s.
Proof.
  intros Hh Hd. induction l as [|a l IH]; cbn [app List.find].
  - by rewrite (proj2 (same_domain_true s dom) Hd).
  - cbn [has_domain existsb] in Hh. apply orb_false_iff in Hh as [-> Hl].
    by apply IH.
Qed.

(** X1. [get_setting] always returns a setting of the requested domain that
    the collection then holds: when a record of the domain exists the state
    is unchanged, and otherwise the returned setting is a new one, appended
    at the end. *)
Theorem get_setting_returns_or_creates dom now m :
  exists s m',
    get_setting dom now m = (Returns s, m') /\
    get_domain s = dom /\ s ∈ settings m' /\
    remote_data m' = remote_data m /\
    if has_domain dom (settings m) then m' = m
    else s = new_PasswordSetting dom now /\ settings m' = settings m ++ [s].
Proof.
  destruct m as [l rd]. unfold get_setting. run.
  destruct (List.find _ l) as [s|] eqn:Hf.
  - destruct (find_has_domain _ _ _ Hf) as [Hs Hd].
    exists s, (mk_manager l rd). do 4 (split; [done |]). cbn [settings].
    assert (has_domain dom l = true) as ->; [| done].
    apply has_domain_true. by exists s.
  - run. eexists _, _. split; [done |]. cbn [settings remote_data].
    split; [done |]. split; [apply elem_of_app; right; apply list_elem_of_here |].
    split; [done |]. by rewrite (find_none_has_domain _ _ Hf).
Qed.

(** X2. [get_setting] twice: a second call for the same domain returns the
    same setting and leaves the state of the first call as it is. *)
Theorem get_setting_twice dom now now' m s m' :
  get_setting dom now m = (Returns s, m') ->
  get_setting dom now' m' = (Returns s, m').
Proof.
  destruct m as [l rd]. unfold get_setting at 1. run.
  destruct (List.find _ l) as [s0|] eqn:Hf.
  - intros [= -> <-]. unfold get_setting. run. by rewrite Hf.
  - run. intros [= <- <-]. unfold get_setting. run.
    by rewrite (find_app_absent dom l (new_PasswordSetting dom now)
                 (find_none_has_domain _ _ Hf) eq_refl).
Qed.

Lemma without_domain_filter dom l :
  without_domain dom l = List.filter (fun x => negb (same_domain x dom)) l.
Proof.
  induction l as [|s r IH]; [done |]. cbn [without_domain List.filter].
  destruct (same_domain s dom); cbn [negb]; by rewrite IH.
Qed.

Lemma save_setting_run setting l rd :
  save_setting setting (mk_manager l rd) =
  (Returns tt, mk_manager (save_pass (get_domain setting) l ++ [setting]) rd).
Proof.
  unfold save_setting. run.
  pose proof (save_setting_for_run setting rd (length l) l []) as H.
  cbn [length app] in H. rewrite H by done. by run.
Qed.

Lemma delete_setting_run setting l rd :
  delete_setting setting (mk_manager l rd) =
  (Returns tt, mk_manager (without_domain (get_domain setting) l) rd).
Proof.
  unfold delete_setting. run.
  pose proof (delete_setting_while_run setting rd l (length l) []) as H.
  cbn [length app] in H. by rewrite H.
Qed.

(** X3. [save_setting] on a collection with at most one record per domain
    keeps the records of the other domains in their order, puts the saved
    setting last, and a following [get_setting] for its domain returns it. *)
Theorem save_setting_then_get_setting setting now l rd :
  one_per_domain l ->
  exists m',
    save_setting setting (mk_manager l rd) = (Returns tt, m') /\
    settings m' =
      List.filter (fun x => negb (same_domain x (get_domain setting))) l ++ [setting] /\
    remote_data m' = rd /\
    get_setting (get_domain setting) now m' = (Returns setting, m').
Proof.
  intros Hl. rewrite save_setting_run. eexists. split; [done |].
  cbn [settings remote_data].
  rewrite (save_pass_one_per_domain _ _ Hl), <- without_domain_filter.
  repeat split. unfold get_setting. run.
  by rewrite (find_app_absent _ _ setting (without_domain_clean _ l) eq_refl).
Qed.

(** X4. [save_setting] steps over the element that follows a popped one: when
    two neighbouring records have the domain of the setting saved, the second
    stays, and the collection ends with two records of that domain. *)
Theorem save_setting_keeps_second_of_a_pair setting pre x y rest rd :
  has_domain (get_domain setting) pre = false ->
  get_domain x = get_domain setting ->
  get_domain y = get_domain setting ->
  exists l',
    save_setting setting (mk_manager (pre ++ x :: y :: rest) rd) =
      (Returns tt, mk_manager l' rd) /\
    y ∈ l' /\ ~ one_per_domain l'.
Proof.
  intros Hpre Hx Hy. rewrite save_setting_run. eexists. split; [done |].
  assert (forall k, save_pass (get_domain setting) (pre ++ k) =
                    pre ++ save_pass (get_domain setting) k) as Happ.
  { intros k. induction pre as [|a pre IH]; [done |].
    cbn [has_domain existsb] in Hpre. apply orb_false_iff in Hpre as [Ha Hp].
    cbn [app save_pass]. rewrite Ha. f_equal. by apply IH. }
  rewrite Happ. cbn [save_pass].
  rewrite (proj2 (same_domain_true x _) Hx).
  split.
  - apply elem_of_app. left. apply elem_of_app. right. apply list_elem_of_here.
  - unfold one_per_domain. rewrite !fmap_app, fmap_cons, <- app_assoc.
    intros [_ [_ Hnd]]%NoDup_app. cbn [app] in Hnd.
    apply NoDup_cons in Hnd as [Hnotin _]. apply Hnotin.
    apply elem_of_app. right. rewrite Hy. apply list_elem_of_here.
Qed.

(** X5. [delete_setting] removes every record of the setting's domain and keeps
    all the others in their order; it always returns. *)
Theorem delete_setting_removes_every_match setting m :
  delete_setting setting m =
  (Returns tt,
   mk_manager
     (List.filter (fun x => negb (same_domain x (get_domain setting))) (settings m))
     (remote_data m)).
Proof.
  destruct m as [l rd]. by rewrite delete_setting_run, without_domain_filter.
Qed.

Lemma domains_without_domain dom l :
  get_domain <$> without_domain dom l =
  List.filter (fun d => negb (String.eqb d dom)) (get_domain <$> l).
Proof.
  induction l as [|s r IH]; [done |]. cbn [without_domain].
  rewrite fmap_cons. cbn [List.filter]. unfold same_domain.
  destruct (String.eqb (get_domain s) dom); cbn [negb];
    [done | by rewrite fmap_cons, IH].
Qed.

(** X6. After [delete_setting], [get_domain_list] returns the former list of
    domains without the deleted domain, and does not change the state. *)
Theorem get_domain_list_after_delete_setting setting m :
  exists before m1,
    get_domain_list m = (Returns before, m) /\
    delete_setting setting m = (Returns tt, m1) /\
    get_domain_list m1 =
      (Returns (List.filter (fun d => negb (String.eqb d (get_domain setting))) before),
       m1).
Proof.
  destruct m as [l rd]. rewrite delete_setting_run.
  unfold get_domain_list. run. eexists _, _.
  do 2 (split; [done |]). run. by rewrite domains_without_domain.
Qed.

Lemma to_dict_set_synced s b : to_dict (set_synced s b) = to_dict s.
Proof. reflexivity. Qed.

(** X7. After [set_all_settings_to_synced], [get_settings_as_list] lists every
    domain as synced, with the same dictionaries as before; the domains and
    the remote data are untouched. *)
Theorem set_all_settings_to_synced_then_list m :
  exists m',
    set_all_settings_to_synced m = (Returns tt, m') /\
    remote_data m' = remote_data m /\
    get_domain <$> settings m' = get_domain <$> settings m /\
    get_settings_as_list m' =
      (Returns (to_dict <$> settings m, get_domain <$> settings m), m').
Proof.
  destruct m as [l rd]. unfold set_all_settings_to_synced. run.
  eexists. split; [done |]. cbn [settings remote_data].
  assert (get_domain <$> ((fun s => set_synced s true) <$> l) = get_domain <$> l) as Hd.
  { induction l as [|s r IH]; [done |]. rewrite !fmap_cons. by rewrite IH. }
  split; [done |]. split; [done |].
  unfold get_settings_as_list. run.
  assert (to_dict <$> ((fun s => set_synced s true) <$> l) = to_dict <$> l) as ->.
  { clear Hd. induction l as [|s r IH]; [done |]. rewrite !fmap_cons.
    rewrite IH. reflexivity. }
  assert (List.filter is_synced ((fun s => set_synced s true) <$> l) =
          (fun s => set_synced s true) <$> l) as ->.
  { clear Hd. induction l as [|s r IH]; [done |].
    rewrite fmap_cons. cbn [List.filter set_synced is_synced]. by rewrite IH. }
  by rewrite Hd.
Qed.

(** ** Saving to the file and loading it back *)

Lemma load_entries_run now synced rd saved :
  all_parse saved ->
  forall l,
    load_entries now synced saved (mk_manager l rd) =
    (Returns tt, mk_manager (load_all now synced saved l) rd).
Proof.
  induction 1 as [|d rest [t Ht] _ IH]; intros l; cbn [load_entries load_all];
    [done |].
  run. by rewrite (load_entry_run _ _ _ _ _ _ Ht), Ht, IH.
Qed.

Lemma load_merge_fixed now data_set synced t l :
  settled data_set t l -> load_merge now data_set synced t l = l.
Proof.
  intros [Hh Hs]. unfold load_merge. rewrite Hh, app_nil_r.
  apply fmap_fixed. intros s Hin. unfold load_one.
  destruct (same_domain s (domain data_set)) eqn:Hd; [| done].
  apply same_domain_true in Hd. by rewrite (Hs s Hin Hd).
Qed.

Lemma merge_entry_fixed now data_set t l :
  settled data_set t l -> merge_entry now data_set t l = l.
Proof.
  intros [Hh Hs]. unfold merge_entry. rewrite Hh, app_nil_r.
  by apply merge_remote_fixed.
Qed.

Lemma settled_own_dump l s :
  one_per_domain l -> s ∈ l -> valid (get_m_date s) = true ->
  settled (dumped s) (truncate (get_m_date s)) l.
Proof.
  intros Hinv Hs Hv. split; [by apply has_domain_of |].
  intros s' Hs' Hd. rewrite (unique_by_domain l s' s Hinv Hs' Hs Hd).
  apply truncate_not_gt. apply valid_bounds in Hv. lia.
Qed.

Lemma load_all_own_dumps now synced l :
  one_per_domain l -> Forall (fun s => valid (get_m_date s) = true) l ->
  forall l0, l0 ⊆ l -> load_all now synced (dumped <$> l0) l = l.
Proof.
  intros Hinv Hv. induction l0 as [|s r IH]; intros Hsub; [done |].
  assert (s ∈ l) as Hs by (apply Hsub, list_elem_of_here).
  assert (valid (get_m_date s) = true) as Hvs
    by (by apply (proj1 (Forall_forall _ l) Hv)).
  rewrite fmap_cons. cbn [load_all]. rewrite (dumped_parses s Hvs).
  rewrite (load_merge_fixed _ _ _ _ _ (settled_own_dump l s Hinv Hs Hvs)).
  apply IH. intros x Hx. apply Hsub. by apply list_elem_of_further.
Qed.

Lemma save_settings_to_file_run password l rd :
  save_settings_to_file password (mk_manager l rd) =
  (Returns (encrypt password (compress (Utf8
     (JObject (dumped <$> l) (get_domain <$> List.filter is_synced l))))),
   mk_manager l rd).
Proof.
  unfold save_settings_to_file, get_settings_as_list. run.
  unfold json_dumps_settings. cbn [fst snd]. rewrite dump_list_to_dict. by run.
Qed.

Lemma decode_file_encoded password doc :
  decode_file password (encrypt password (compress (Utf8 doc))) = Returns doc.
Proof.
  unfold decode_file, encrypt, compress. cbn. by rewrite String.eqb_refl.
Qed.

(** X9. Loading a manager's own settings file back into it changes nothing,
    when it holds at most one record per domain. *)
Theorem load_own_file_changes_nothing password now l rd :
  one_per_domain l ->
  Forall (fun s => valid (get_m_date s) = true) l ->
  exists content,
    save_settings_to_file password (mk_manager l rd) =
      (Returns content, mk_manager l rd) /\
    load_settings_from_file password (Some content) now (mk_manager l rd) =
      (Returns tt, mk_manager l rd).
Proof.
  intros Hinv Hv. rewrite save_settings_to_file_run. eexists. split; [done |].
  unfold load_settings_from_file. rewrite decode_file_encoded. run.
  rewrite (load_entries_run _ _ _ _ (all_parse_dumped l Hv)).
  by rewrite (load_all_own_dumps now _ l Hinv Hv l).
Qed.

Lemma synced_flag_restored l s :
  one_per_domain l -> s ∈ l ->
  existsb (String.eqb (get_domain s)) (get_domain <$> List.filter is_synced l) =
  is_synced s.
Proof.
  intros Hinv Hs. destruct (is_synced s) eqn:Hsync.
  - apply existsb_eqb_true, list_elem_of_fmap_2, list_elem_of_In, filter_In.
    split; [by apply list_elem_of_In | done].
  - apply not_true_iff_false.
    intros (s' & Hd & Hs')%existsb_eqb_true%list_elem_of_fmap.
    apply list_elem_of_In, filter_In in Hs' as [Hs' Hsync'].
    apply list_elem_of_In in Hs'.
    rewrite (unique_by_domain l s s' Hinv Hs Hs' Hd) in Hsync. congruence.
Qed.

Lemma load_all_fresh now synced l :
  one_per_domain l -> Forall (fun s => valid (get_m_date s) = true) l ->
  (forall s, s ∈ l -> existsb (String.eqb (get_domain s)) synced = is_synced s) ->
  forall l2 acc,
    l = acc ++ l2 ->
    load_all now synced (dumped <$> l2) (reloaded <$> acc) = reloaded <$> l.
Proof.
  intros Hinv Hv Hsync. induction l2 as [|s r IH]; intros acc Heq.
  - by rewrite Heq, app_nil_r.
  - assert (s ∈ l) as Hs.
    { rewrite Heq. apply elem_of_app. right. apply list_elem_of_here. }
    assert (valid (get_m_date s) = true) as Hvs
      by (by apply (proj1 (Forall_forall _ l) Hv)).
    rewrite fmap_cons. cbn [load_all]. rewrite (dumped_parses s Hvs).
    assert (has_domain (domain (dumped s)) (reloaded <$> acc) = false) as Hh.
    { apply has_domain_false. cbn [dumped domain].
      unfold one_per_domain in Hinv. rewrite Heq, fmap_app, fmap_cons in Hinv.
      apply NoDup_app in Hinv as (_ & Hdisj & _).
      intros Hin. apply (Hdisj (get_domain s)); [| apply list_elem_of_here].
      rewrite <- list_fmap_compose in Hin.
      apply list_elem_of_fmap in Hin as (x & -> & Hx).
      by apply list_elem_of_fmap_2. }
    unfold load_merge. rewrite Hh.
    assert (load_one (truncate (get_m_date s)) (dumped s) synced <$> (reloaded <$> acc)
            = reloaded <$> acc) as ->.
    { apply fmap_fixed. intros x Hx. unfold load_one.
      destruct (same_domain x (domain (dumped s))) eqn:Hd; [| done].
      exfalso. apply not_true_iff_false in Hh. apply Hh, has_domain_true.
      exists x. split; [done | by apply same_domain_true]. }
    assert (load_new now (dumped s) synced (truncate (get_m_date s)) = reloaded s) as ->.
    { unfold load_new, loaded, set_synced, reloaded. cbn.
      by rewrite (Hsync s Hs). }
    specialize (IH (acc ++ [s])). rewrite fmap_app in IH. apply IH.
    by rewrite Heq, <- app_assoc.
Qed.

(** X8. [save_settings_to_file] followed by [load_settings_from_file] with the
    same password into a fresh manager gives back every record, in order,
    with its domain, fields and synced flag, and its modification time cut
    to whole seconds. *)
Theorem save_then_load_into_empty_manager password now l rd :
  one_per_domain l ->
  Forall (fun s => valid (get_m_date s) = true) l ->
  exists content,
    save_settings_to_file password (mk_manager l rd) =
      (Returns content, mk_manager l rd) /\
    load_settings_from_file password (Some content) now init =
      (Returns tt, mk_manager (reloaded <$> l) None).
Proof.
  intros Hinv Hv. rewrite save_settings_to_file_run. eexists. split; [done |].
  unfold load_settings_from_file, init. rewrite decode_file_encoded. run.
  rewrite (load_entries_run _ _ _ _ (all_parse_dumped l Hv)).
  pose proof (load_all_fresh now _ l Hinv Hv
                (fun s Hs => synced_flag_restored l s Hinv Hs) l [] eq_refl) as H.
  cbn [fmap list_fmap] in H. by rewrite H.
Qed.

(** ** Merging the same entries again *)

Lemma has_domain_load_one dom t data_set synced l :
  has_domain dom (load_one t data_set synced <$> l) = has_domain dom l.
Proof.
  induction l as [|s r IH]; [done |]. rewrite fmap_cons.
  cbn [has_domain existsb]. unfold has_domain in IH. rewrite IH.
  unfold same_domain. by rewrite load_one_domain.
Qed.

Lemma has_domain_app dom l k :
  has_domain dom (l ++ k) = has_domain dom l || has_domain dom k.
Proof. apply existsb_app. Qed.

Lemma load_one_cases t data_set synced s :
  (load_one t data_set synced s = s /\
   (get_domain s <> domain data_set \/ gt t (get_m_date s) = false)) \/
  (get_domain s = domain data_set /\ gt t (get_m_date s) = true /\
   get_m_date (load_one t data_set synced s) = t).
Proof.
  unfold load_one. destruct (same_domain s (domain data_set)) eqn:Hd; cbn [andb].
  - apply same_domain_true in Hd. destruct (gt t (get_m_date s)) eqn:Hg.
    + right. by repeat split.
    + left. split; [done | by right].
  - apply same_domain_false in Hd. left. split; [done | by left].
Qed.

Lemma load_merge_settles now data_set synced t l :
  settled data_set t (load_merge now data_set synced t l).
Proof.
  unfold load_merge. split.
  - rewrite has_domain_app, has_domain_load_one.
    destruct (has_domain (domain data_set) l) eqn:Hh; [done |].
    cbn [orb has_domain existsb]. unfold same_domain, load_new. cbn.
    by rewrite String.eqb_refl.
  - intros s [Hs | Hs]%elem_of_app Hd.
    + apply list_elem_of_fmap in Hs as (s0 & -> & Hs0).
      rewrite load_one_domain in Hd.
      destruct (load_one_cases t data_set synced s0) as [[-> [? | ?]] | (_ & _ & ->)];
        [done | done | apply gt_irrefl].
    + destruct (has_domain (domain data_set) l); [by apply elem_of_nil in Hs |].
      apply list_elem_of_singleton in Hs as ->. apply gt_irrefl.
Qed.

Lemma load_merge_keeps_settled now data_set t data_set' synced t' l :
  settled data_set t l -> settled data_set t (load_merge now data_set' synced t' l).
Proof.
  intros [Hh Hs]. unfold load_merge. split.
  - by rewrite has_domain_app, has_domain_load_one, Hh.
  - intros s [Hin | Hin]%elem_of_app Hd.
    + apply list_elem_of_fmap in Hin as (s0 & -> & Hs0).
      rewrite load_one_domain in Hd.
      destruct (load_one_cases t' data_set' synced s0)
        as [[-> _] | (_ & Hg & ->)]; [by apply Hs |].
      by apply (not_gt_trans t (get_m_date s0) t'); [apply Hs |].
    + destruct (has_domain (domain data_set') l) eqn:Hh';
        [by apply elem_of_nil in Hin |].
      apply list_elem_of_singleton in Hin as ->.
      exfalso. cbn in Hd. rewrite Hd in Hh'. congruence.
Qed.

Lemma load_all_keeps_settled now synced data_set t saved :
  forall l, settled data_set t l -> settled data_set t (load_all now synced saved l).
Proof.
  induction saved as [|d rest IH]; intros l Hs; cbn [load_all]; [done |].
  destruct (strptime (mDate d)); [| done].
  by apply IH, load_merge_keeps_settled.
Qed.

Lemma load_all_settles now synced saved :
  all_parse saved ->
  forall l, all_settled saved (load_all now synced saved l).
Proof.
  induction 1 as [|d rest [t Ht] _ IH]; intros l; [by apply Forall_nil |].
  cbn [load_all]. rewrite Ht. apply Forall_cons. split; [| apply IH].
  intros t' Ht'. rewrite Ht in Ht'. injection Ht' as <-.
  apply load_all_keeps_settled, load_merge_settles.
Qed.

Lemma load_all_fixed now synced saved l :
  all_settled saved l -> load_all now synced saved l = l.
Proof.
  induction 1 as [|d rest Hd _ IH]; [done |]. cbn [load_all].
  destruct (strptime (mDate d)) as [t|] eqn:Ht; [| done].
  by rewrite (load_merge_fixed _ _ _ _ _ (Hd t eq_refl)).
Qed.

(** X10. Loading the same settings file twice gives the state that loading it
    once gives: the second load changes nothing. *)
Theorem load_settings_from_file_twice password content now now' saved synced m :
  decode_file password content = Returns (JObject saved synced) ->
  all_parse saved ->
  exists m1,
    load_settings_from_file password (Some content) now m = (Returns tt, m1) /\
    load_settings_from_file password (Some content) now' m1 = (Returns tt, m1).
Proof.
  intros Hdec Hp. destruct m as [l rd]. unfold load_settings_from_file.
  rewrite Hdec. run. rewrite (load_entries_run _ _ _ _ Hp).
  eexists. split; [done |]. run.
  rewrite (load_entries_run _ _ _ _ Hp).
  by rewrite (load_all_fixed now' synced saved _ (load_all_settles now synced saved Hp l)).
Qed.

Lemma merge_entry_elem now data_set t l s :
  s ∈ merge_entry now data_set t l ->
  (s ∈ l /\ (get_domain s <> domain data_set \/ gt t (get_m_date s) = false)) \/
  (get_domain s = domain data_set /\ get_m_date s = t).
Proof.
  unfold merge_entry. intros [Hs | Hs]%elem_of_app.
  - apply merge_remote_elem in Hs as [Hs | (_ & s0 & _ & Hd & _ & ->)];
      [by left | by right].
  - destruct (has_domain (domain data_set) l); [by apply elem_of_nil in Hs |].
    apply list_elem_of_singleton in Hs as ->. by right.
Qed.

Lemma merge_entry_has_domain now data_set t l :
  is_deleted data_set = false ->
  has_domain (domain data_set) (merge_entry now data_set t l) = true.
Proof.
  intros Hlive. unfold merge_entry. rewrite has_domain_app.
  destruct (has_domain (domain data_set) l) eqn:Hh.
  - apply has_domain_true in Hh as (s & Hs & Hd). rewrite orb_false_r.
    destruct (gt t (get_m_date s)) eqn:Hg.
    + apply has_domain_true. exists (set_synced (loaded s t data_set) true).
      split; [| done]. apply merge_remote_elem. right. split; [done |]. by exists s.
    + apply has_domain_true. exists s. split; [| done].
      apply merge_remote_elem. left. split; [done | by right].
  - cbn [has_domain existsb]. unfold same_domain, inserted. cbn.
    by rewrite String.eqb_refl, orb_true_r.
Qed.

Lemma merge_entry_settles now data_set t l :
  is_deleted data_set = false -> settled data_set t (merge_entry now data_set t l).
Proof.
  intros Hlive. split; [by apply merge_entry_has_domain |].
  intros s [[_ [? | ?]] | [_ ->]]%merge_entry_elem Hd; [done | done | apply gt_irrefl].
Qed.

Lemma merge_entry_keeps_has_domain now data_set t l dom :
  is_deleted data_set = false ->
  has_domain dom l = true -> has_domain dom (merge_entry now data_set t l) = true.
Proof.
  intros Hlive (s & Hs & Hd)%has_domain_true. apply has_domain_true.
  unfold merge_entry.
  destruct (same_domain s (domain data_set) && gt t (get_m_date s)) eqn:Hc.
  - apply andb_true_iff in Hc as [Hsd%same_domain_true Hg].
    exists (set_synced (loaded s t data_set) true). split; [| done].
    apply elem_of_app. left. apply merge_remote_elem. right.
    split; [done |]. by exists s.
  - exists s. split; [| done]. apply elem_of_app. left.
    apply merge_remote_elem. left. split; [done |].
    apply andb_false_iff in Hc as [Hsd%same_domain_false | Hg]; [by left | by right].
Qed.

Lemma merge_entry_keeps_settled now data_set t data_set' t' l :
  is_deleted data_set' = false ->
  settled data_set t l -> settled data_set t (merge_entry now data_set' t' l).
Proof.
  intros Hlive [Hh Hs]. split; [by apply merge_entry_keeps_has_domain |].
  intros s Hin Hd. unfold merge_entry in Hin.
  apply elem_of_app in Hin as [Hin | Hin].
  - apply merge_remote_elem in Hin as [[Hin _] | (_ & s0 & Hs0 & Hd0 & Hg & ->)];
      [by apply Hs |].
    cbn. apply (not_gt_trans t (get_m_date s0) t'); [| done].
    apply Hs; [done |]. by rewrite <- Hd.
  - destruct (has_domain (domain data_set') l) eqn:Hh';
      [by apply elem_of_nil in Hin |].
    apply list_elem_of_singleton in Hin as ->.
    exfalso. cbn in Hd. rewrite Hd in Hh'. congruence.
Qed.

Lemma merge_all_keeps_settled now data_set t remote :
  all_live remote ->
  forall l, settled data_set t l -> settled data_set t (merge_all now remote l).
Proof.
  induction 1 as [|d rest Hd _ IH]; intros l Hs; cbn [merge_all]; [done |].
  destruct (strptime (mDate d)); [| done].
  by apply IH, merge_entry_keeps_settled.
Qed.

Lemma merge_all_settles now remote :
  all_parse remote -> all_live remote ->
  forall l, all_settled remote (merge_all now remote l).
Proof.
  induction 1 as [|d rest [t Ht] _ IH]; intros Hlive l; [by apply Forall_nil |].
  apply Forall_cons in Hlive as [Hd Hlive].
  cbn [merge_all]. rewrite Ht. apply Forall_cons. split; [| by apply IH].
  intros t' Ht'. rewrite Ht in Ht'. injection Ht' as <-.
  by apply merge_all_keeps_settled, merge_entry_settles.
Qed.

Lemma merge_all_fixed now remote l :
  all_settled remote l -> merge_all now remote l = l.
Proof.
  induction 1 as [|d rest Hd _ IH]; [done |]. cbn [merge_all].
  destruct (strptime (mDate d)) as [t|] eqn:Ht; [| done].
  by rewrite (merge_entry_fixed _ _ _ _ (Hd t eq_refl)).
Qed.

(** X11. Importing the same blob twice, when it has no tombstone, leaves the
    state that importing it once leaves. *)
Theorem update_from_export_data_twice password data now now' remote m :
  decode_blob password data = Returns (JArray remote) ->
  all_parse remote -> all_live remote ->
  exists b b' m1,
    update_from_export_data password data now m = (Returns b, m1) /\
    update_from_export_data password data now' m1 = (Returns b', m1).
Proof.
  intros Hdec Hp Hlive. destruct m as [l rd].
  rewrite (update_from_export_data_run _ _ _ _ _ _ Hdec Hp).
  eexists _, _, _. split; [done |].
  rewrite (update_from_export_data_run _ _ _ _ _ _ Hdec Hp).
  by rewrite (merge_all_fixed now' remote _ (merge_all_settles now remote Hp Hlive l)).
Qed.

(** ** What the import returns and what it leaves behind *)

Lemma needs_export_snoc_other p d s :
  get_domain s <> domain d -> needs_export (p ++ [d]) s = needs_export p s.
Proof.
  intros Hd%same_domain_false. unfold needs_export. rewrite !existsb_app.
  cbn [existsb]. unfold counterpart_not_newer at 2. rewrite Hd. cbn [andb].
  by rewrite !orb_false_r.
Qed.

Lemma needs_export_snoc_counterpart p d t s :
  get_domain s = domain d -> strptime (mDate d) = Some t ->
  ge (get_m_date s) t = true -> needs_export (p ++ [d]) s = true.
Proof.
  intros Hd%same_domain_true Ht Hge. unfold needs_export. rewrite !existsb_app.
  cbn [existsb]. unfold counterpart_not_newer at 2. rewrite Hd, Ht, Hge.
  cbn [andb orb]. by rewrite !orb_true_r.
Qed.

Lemma merge_entry_needs_export now p d t l :
  strptime (mDate d) = Some t ->
  (forall s, s ∈ l -> needs_export p s = true) ->
  forall s, s ∈ merge_entry now d t l -> needs_export (p ++ [d]) s = true.
Proof.
  intros Ht Hl s [[Hs Hc] | [Hd Hm]]%merge_entry_elem.
  - destruct (same_domain s (domain d)) eqn:Hsd.
    + apply same_domain_true in Hsd. destruct Hc as [? | Hg]; [done |].
      by apply (needs_export_snoc_counterpart p d t); [| | apply not_gt_ge].
    + apply same_domain_false in Hsd. rewrite needs_export_snoc_other by done.
      by apply Hl.
  - apply (needs_export_snoc_counterpart p d t); [done | done |].
    rewrite Hm. apply ge_refl.
Qed.

Lemma merge_all_needs_export now remote :
  all_parse remote ->
  forall p l,
    (forall s, s ∈ l -> needs_export p s = true) ->
    forall s, s ∈ merge_all now remote l -> needs_export (p ++ remote) s = true.
Proof.
  induction 1 as [|d rest [t Ht] _ IH]; intros p l Hl s Hs; cbn [merge_all] in Hs.
  - rewrite app_nil_r. by apply Hl.
  - rewrite Ht in Hs. rewrite (snoc_app p d rest).
    apply (IH (p ++ [d]) (merge_entry now d t l)); [| done].
    by apply merge_entry_needs_export.
Qed.

(** X12. [update_from_export_data] returns false only when no record is left:
    after the import every record is at least as new as some entry of its
    domain or has none, and that makes the second pass ask for an export. *)
Theorem update_from_export_data_false_only_when_empty password data now remote m :
  decode_blob password data = Returns (JArray remote) ->
  all_parse remote ->
  exists b m',
    update_from_export_data password data now m = (Returns b, m') /\
    (b = false -> settings m' = []).
Proof.
  intros Hdec Hp. destruct m as [l rd].
  rewrite (update_from_export_data_run _ _ _ _ _ _ Hdec Hp).
  eexists _, _. split; [done |]. cbn [settings].
  intros [_ Hscan]%orb_false_iff.
  destruct (merge_all now remote l) as [|s r] eqn:Hm; [done |].
  exfalso. apply not_true_iff_false in Hscan. apply Hscan.
  apply existsb_exists. exists s. split; [by left |].
  apply (merge_all_needs_export now remote Hp [] l); [done |].
  rewrite Hm. apply list_elem_of_here.
Qed.

(** X17. A record whose domain the payload does not mention is still in the
    collection after the import, unchanged, and the import returns true. *)
Theorem update_from_export_data_keeps_unmentioned password data now remote m s :
  decode_blob password data = Returns (JArray remote) ->
  all_parse remote ->
  s ∈ settings m ->
  (forall d, d ∈ remote -> domain d <> get_domain s) ->
  exists m',
    update_from_export_data password data now m = (Returns true, m') /\
    s ∈ settings m'.
Proof.
  intros Hdec Hp Hs Hno. destruct m as [l rd]. cbn [settings] in Hs.
  rewrite (update_from_export_data_run _ _ _ _ _ _ Hdec Hp).
  assert (s ∈ merge_all now remote l) as Hs' by (by apply merge_all_keeps).
  assert (existsb (needs_export remote) (merge_all now remote l) = true) as ->.
  { apply export_needed_spec. exists s. split; [done | by left]. }
  rewrite orb_true_r. by eexists.
Qed.

Lemma update_entries_remote_data now remote :
  forall u m, remote_data (update_entries now remote u m).2 = remote_data m.
Proof.
  induction remote as [|d rest IH]; intros u [l rd]; cbn [update_entries]; [done |].
  run. destruct (strptime (mDate d)) as [t|] eqn:Ht.
  - rewrite (update_entry_run _ _ _ _ _ _ Ht). by rewrite IH.
  - by rewrite (update_entry_unparsed _ _ _ _ Ht).
Qed.

(** X13. [update_from_export_data] replaces [remote_data] by the decoded
    payload as soon as decoding succeeds, whatever happens afterwards; when
    decoding raises, the exception is passed on and the manager is as it
    was. *)
Theorem update_from_export_data_replaces_remote_data password data now m :
  match decode_blob password data with
  | Returns decoded =>
      remote_data (update_from_export_data password data now m).2 = Some decoded
  | Raises e => update_from_export_data password data now m = (Raises e, m)
  end.
Proof.
  destruct m as [l rd]. unfold update_from_export_data.
  destruct (decode_blob password data) as [decoded | e]; [| by run].
  run. destruct decoded as [remote | saved synced]; [| done].
  run.
  pose proof (update_entries_remote_data now remote false
                (mk_manager l (Some (JArray remote)))) as H.
  destruct (update_entries now remote false _) as [[u | e] m']; [| done].
  run. cbn [snd remote_data] in H. by destruct (scan_settings _ _ _), m'.
Qed.



(** ** The export after a local deletion *)

Lemma dump_list_datetime l x r :
  (exists t, mDate x = PyDatetime t) ->
  dump_list ((to_dict <$> l) ++ x :: r) = Raises TypeError.
Proof.
  intros [t Ht]. induction l as [|s l IH].
  - cbn [fmap list_fmap app dump_list]. unfold dump_dict. by rewrite Ht.
  - rewrite fmap_cons. cbn [app dump_list]. by rewrite IH.
Qed.

Lemma export_entries_live now entries :
  all_live entries ->
  forall settings_list,
    exists extra,
      export_entries now settings_list entries = Returns (settings_list ++ extra) /\
      Forall (fun x => mDate x = PyDatetime now) extra /\
      ((exists d, d ∈ entries /\ domain d ∉ (domain <$> settings_list)) ->
       extra <> []).
Proof.
  induction 1 as [|d rest Hd _ IH]; intros sl.
  - exists []. rewrite app_nil_r. split; [done |]. split; [done |].
    by intros (d & ?%elem_of_nil & _).
  - cbn [export_entries]. unfold export_entry. rewrite Hd.
    cbn [mbind result_bind mret result_ret].
    destruct (existsb (String.eqb (domain d)) (domain <$> sl)) eqn:Hin;
      cbn [negb mbind result_bind mret result_ret].
    + destruct (IH sl) as (extra & Hrun & Hdt & Hne). exists extra.
      split; [done |]. split; [done |].
      intros (d' & [-> | Hd']%elem_of_cons & Hnot).
      * exfalso. by apply Hnot, existsb_eqb_true.
      * apply Hne. by exists d'.
    + destruct (IH (sl ++ [mk_dict (domain d) (PyDatetime now) (Some true) []]))
        as (extra & Hrun & Hdt & _).
      exists (mk_dict (domain d) (PyDatetime now) (Some true) [] :: extra).
      split; [by rewrite Hrun, <- app_assoc |].
      split; [by apply Forall_cons |]. done.
Qed.

(** X15. [get_export_data] raises [TypeError] and returns no blob whenever the
    retained payload has no tombstone and names a domain the collection does
    not hold, as after a [delete_setting] of an imported domain. *)
Theorem get_export_data_raises_after_local_delete password now l entries :
  all_live entries ->
  (exists d, d ∈ entries /\ domain d ∉ (get_domain <$> l)) ->
  get_export_data password now (mk_manager l (Some (JArray entries))) =
  (Raises TypeError, mk_manager l (Some (JArray entries))).
Proof.
  intros Hlive Habs. unfold get_export_data, export_list, get_settings_as_list. run.
  destruct (export_entries_live now entries Hlive (to_dict <$> l))
    as (extra & -> & Hdt & Hne).
  run. rewrite domain_to_dict in Hne. specialize (Hne Habs).
  destruct extra as [|x r]; [done |].
  apply Forall_cons in Hdt as [Hx _].
  unfold json_dumps. rewrite (dump_list_datetime l x r); [by run | by eexists].
Qed.

(** ** What the two merges keep *)

(** X18. [load_settings_from_file], merge step, file entry strictly newer: the
    one record of the domain takes the entry's date and fields, its synced
    flag says whether the domain is in the file's synced list, and no record
    is added or removed, also when the entry says deleted. *)
Theorem load_entry_newer_wins now synced data_set t l rd L :
  one_per_domain l -> L ∈ l -> get_domain L = domain data_set ->
  strptime (mDate data_set) = Some t -> gt t (get_m_date L) = true ->
  exists l',
    load_entry now synced data_set (mk_manager l rd) =
      (Returns tt, mk_manager l' rd) /\
    length l' = length l /\
    mk_setting (domain data_set) t
      (existsb (String.eqb (domain data_set)) synced) (others data_set) ∈ l' /\
    forall s, s ∈ l' -> get_domain s = domain data_set ->
      s = mk_setting (domain data_set) t
            (existsb (String.eqb (domain data_set)) synced) (others data_set).
Proof.
  intros Hinv HL Hdom Ht Hgt.
  assert (has_domain (domain data_set) l = true) as Hh
    by (rewrite <- Hdom; by apply has_domain_of).
  rewrite (load_entry_run _ _ _ _ _ _ Ht). eexists. split; [done |].
  unfold load_merge. rewrite Hh, app_nil_r.
  assert (load_one t data_set synced L =
          mk_setting (domain data_set) t
            (existsb (String.eqb (domain data_set)) synced) (others data_set)) as HR.
  { unfold load_one. rewrite (proj2 (same_domain_true L _) Hdom), Hgt.
    unfold set_synced, loaded. cbn. by rewrite Hdom. }
  split; [by rewrite length_fmap |]. split.
  - rewrite <- HR. by apply list_elem_of_fmap_2.
  - intros s (s0 & -> & Hs0)%list_elem_of_fmap Hd.
    rewrite load_one_domain in Hd.
    by rewrite (unique_by_domain l s0 L Hinv Hs0 HL) by congruence.
Qed.

Lemma load_merge_domains now data_set synced t l :
  (get_domain <$> l) `prefix_of` (get_domain <$> load_merge now data_set synced t l).
Proof.
  unfold load_merge. rewrite fmap_app.
  assert (get_domain <$> (load_one t data_set synced <$> l) = get_domain <$> l) as ->.
  { induction l as [|s r IH]; [done |].
    rewrite !fmap_cons, load_one_domain. by rewrite IH. }
  by apply prefix_app_r.
Qed.

Lemma load_entries_domains now synced saved :
  forall m,
    (get_domain <$> settings m) `prefix_of`
    (get_domain <$> settings (load_entries now synced saved m).2).
Proof.
  induction saved as [|d rest IH]; intros [l rd]; cbn [load_entries]; [done |].
  run. destruct (strptime (mDate d)) as [t|] eqn:Ht.
  - rewrite (load_entry_run _ _ _ _ _ _ Ht).
    etrans; [apply (load_merge_domains now d synced t) | apply IH].
  - by rewrite (load_entry_unparsed _ _ _ _ Ht).
Qed.

(** X19. [load_settings_from_file] never removes a record: the list of domains
    before the call is a prefix of the list after it, whether the call
    returns or raises. *)
Theorem load_settings_from_file_never_removes password file now m :
  (get_domain <$> settings m) `prefix_of`
  (get_domain <$> settings (load_settings_from_file password file now m).2).
Proof.
  unfold load_settings_from_file. destruct file as [content |]; [| done]. run.
  destruct m as [l rd]. run.
  destruct (decode_file password content) as [[entries | saved synced] | e];
    [done | | done].
  apply load_entries_domains.
Qed.

Lemma merge_entry_keeps_domain now data_set t l dom :
  is_deleted data_set = false \/ domain data_set <> dom ->
  has_domain dom l = true -> has_domain dom (merge_entry now data_set t l) = true.
Proof.
  intros Hc (s & Hs & Hd)%has_domain_true. apply has_domain_true.
  unfold merge_entry.
  destruct (same_domain s (domain data_set) && gt t (get_m_date s)) eqn:Hw.
  - apply andb_true_iff in Hw as [Hsd%same_domain_true Hg].
    destruct Hc as [Hlive | Hne]; [| congruence].
    exists (set_synced (loaded s t data_set) true). split; [| done].
    apply elem_of_app. left. apply merge_remote_elem. right.
    split; [done |]. by exists s.
  - exists s. split; [| done]. apply elem_of_app. left.
    apply merge_remote_elem. left. split; [done |].
    apply andb_false_iff in Hw as [Hsd%same_domain_false | Hg]; [by left | by right].
Qed.

Lemma merge_all_keeps_domain now dom remote :
  (forall d, d ∈ remote -> domain d = dom -> is_deleted d = false) ->
  forall l, has_domain dom l = true -> has_domain dom (merge_all now remote l) = true.
Proof.
  induction remote as [|d rest IH]; intros Hr l Hh; cbn [merge_all]; [done |].
  destruct (strptime (mDate d)); [| done].
  apply IH; [intros d' Hd'; apply Hr; by apply list_elem_of_further |].
  apply merge_entry_keeps_domain; [| done].
  destruct (String.eqb_spec (domain d) dom) as [Heq | Hne]; [| by right].
  left. by apply Hr; [apply list_elem_of_here |].
Qed.

(** X20. [update_from_export_data] removes a domain only through a tombstone
    of that domain: a domain held before, for which every entry of the
    payload is live, is held after. *)
Theorem update_from_export_data_removes_only_by_tombstone
    password data now remote m dom :
  decode_blob password data = Returns (JArray remote) ->
  all_parse remote ->
  has_domain dom (settings m) = true ->
  (forall d, d ∈ remote -> domain d = dom -> is_deleted d = false) ->
  exists b m',
    update_from_export_data password data now m = (Returns b, m') /\
    has_domain dom (settings m') = true.
Proof.
  intros Hdec Hp Hh Hlive. destruct m as [l rd].
  rewrite (update_from_export_data_run _ _ _ _ _ _ Hdec Hp).
  eexists _, _. split; [done |]. by apply merge_all_keeps_domain.
Qed.

Lemma merge_entry_old_or_synced now data_set t l s :
  s ∈ merge_entry now data_set t l -> s ∈ l \/ is_synced s = true.
Proof.
  unfold merge_entry. intros [Hs | Hs]%elem_of_app.
  - apply merge_remote_elem in Hs as [[Hs _] | (_ & s0 & _ & _ & _ & ->)];
      [by left | by right].
  - destruct (has_domain (domain data_set) l); [by apply elem_of_nil in Hs |].
    apply list_elem_of_singleton in Hs as ->. by right.
Qed.

Lemma merge_all_old_or_synced now remote :
  forall l s, s ∈ merge_all now remote l -> s ∈ l \/ is_synced s = true.
Proof.
  induction remote as [|d rest IH]; intros l s Hs; cbn [merge_all] in Hs; [by left |].
  destruct (strptime (mDate d)); [| by left].
  apply IH in Hs as [Hs | Hs]; [| by right].
  by apply merge_entry_old_or_synced in Hs.
Qed.

(** X21. After [update_from_export_data], every record is either a record the
    collection held before, unchanged, or is marked synced. *)
Theorem update_from_export_data_marks_what_it_wrote password data now remote m :
  decode_blob password data = Returns (JArray remote) ->
  all_parse remote ->
  exists b m',
    update_from_export_data password data now m = (Returns b, m') /\
    forall s, s ∈ settings m' -> s ∈ settings m \/ is_synced s = true.
Proof.
  intros Hdec Hp. destruct m as [l rd].
  rewrite (update_from_export_data_run _ _ _ _ _ _ Hdec Hp).
  eexists _, _. split; [done |]. apply merge_all_old_or_synced.
Qed.

(** ** Instances of the further properties *)

Lemma sample_pair_is_one_per_domain : one_per_domain sample_pair.
Proof.
  unfold one_per_domain. cbn. apply NoDup_cons_2; [| apply NoDup_singleton].
  by intros ?%list_elem_of_singleton.
Defined.

Lemma sample_pair_valid : Forall (fun s => valid (get_m_date s) = true) sample_pair.
Proof. repeat constructor. Defined.

Lemma get_setting_twice_witness :
  let m := mk_manager sample_pair None in
  let s := new_PasswordSetting "c.com" sample_now in
  let m' := mk_manager (sample_pair ++ [s]) None in
  get_setting "c.com" sample_now m = (Returns s, m') /\
  get_setting "c.com" (noon 9) m' = (Returns s, m').
Proof.
  intros m s m'. split; [done |].
  apply (get_setting_twice "c.com" sample_now (noon 9) m s m' eq_refl).
Defined.

Lemma save_setting_then_get_setting_witness :
  let setting := sample_setting "a.com" 7 in
  one_per_domain sample_pair /\
  exists m',
    save_setting setting (mk_manager sample_pair None) = (Returns tt, m') /\
    settings m' =
      List.filter (fun x => negb (same_domain x (get_domain setting))) sample_pair
      ++ [setting] /\
    remote_data m' = None /\
    get_setting (get_domain setting) sample_now m' = (Returns setting, m').
Proof.
  intros setting. split; [apply sample_pair_is_one_per_domain |].
  apply (save_setting_then_get_setting setting sample_now sample_pair None
           sample_pair_is_one_per_domain).
Defined.

Lemma save_setting_keeps_second_of_a_pair_witness :
  let setting := sample_setting "a.com" 7 in
  let pre := [sample_setting "b.com" 1] in
  let x := sample_setting "a.com" 1 in
  let y := sample_setting "a.com" 2 in
  has_domain (get_domain setting) pre = false /\
  get_domain x = get_domain setting /\
  get_domain y = get_domain setting /\
  exists l',
    save_setting setting (mk_manager (pre ++ x :: y :: []) None) =
      (Returns tt, mk_manager l' None) /\
    y ∈ l' /\ ~ one_per_domain l'.
Proof.
  intros setting pre x y. do 3 (split; [done |]).
  apply (save_setting_keeps_second_of_a_pair setting pre x y [] None
           eq_refl eq_refl eq_refl).
Defined.

Lemma save_then_load_into_empty_manager_witness :
  one_per_domain sample_pair /\
  Forall (fun s => valid (get_m_date s) = true) sample_pair /\
  exists content,
    save_settings_to_file "pw" (mk_manager sample_pair None) =
      (Returns content, mk_manager sample_pair None) /\
    load_settings_from_file "pw" (Some content) sample_now init =
      (Returns tt, mk_manager (reloaded <$> sample_pair) None).
Proof.
  split; [apply sample_pair_is_one_per_domain |].
  split; [apply sample_pair_valid |].
  apply (save_then_load_into_empty_manager "pw" sample_now sample_pair None
           sample_pair_is_one_per_domain sample_pair_valid).
Defined.

Lemma load_own_file_changes_nothing_witness :
  one_per_domain sample_pair /\
  Forall (fun s => valid (get_m_date s) = true) sample_pair /\
  exists content,
    save_settings_to_file "pw" (mk_manager sample_pair None) =
      (Returns content, mk_manager sample_pair None) /\
    load_settings_from_file "pw" (Some content) sample_now
      (mk_manager sample_pair None) =
      (Returns tt, mk_manager sample_pair None).
Proof.
  split; [apply sample_pair_is_one_per_domain |].
  split; [apply sample_pair_valid |].
  apply (load_own_file_changes_nothing "pw" sample_now sample_pair None
           sample_pair_is_one_per_domain sample_pair_valid).
Defined.

Lemma sample_entries_parse :
  all_parse [live_entry "a.com" "2015-01-05T12:00:00";
             live_entry "c.com" "2015-01-03T12:00:00"].
Proof. repeat constructor; by eexists. Defined.

Lemma sample_entries_live :
  all_live [live_entry "a.com" "2015-01-05T12:00:00";
            live_entry "c.com" "2015-01-03T12:00:00"].
Proof. repeat constructor. Defined.

Lemma load_settings_from_file_twice_witness :
  let saved := [live_entry "a.com" "2015-01-05T12:00:00";
                live_entry "c.com" "2015-01-03T12:00:00"] in
  let content := sample_file "pw" saved ["c.com"] in
  decode_file "pw" content = Returns (JObject saved ["c.com"]) /\
  all_parse saved /\
  exists m1,
    load_settings_from_file "pw" (Some content) sample_now
      (mk_manager sample_pair None) = (Returns tt, m1) /\
    load_settings_from_file "pw" (Some content) (noon 9) m1 = (Returns tt, m1).
Proof.
  intros saved content. split; [done |]. split; [apply sample_entries_parse |].
  apply (load_settings_from_file_twice "pw" content sample_now (noon 9) saved
           ["c.com"] (mk_manager sample_pair None) eq_refl sample_entries_parse).
Defined.

Lemma update_from_export_data_twice_witness :
  let remote := [live_entry "a.com" "2015-01-05T12:00:00";
                 live_entry "c.com" "2015-01-03T12:00:00"] in
  let data := sample_blob "pw" remote in
  decode_blob "pw" data = Returns (JArray remote) /\
  all_parse remote /\ all_live remote /\
  exists b b' m1,
    update_from_export_data "pw" data sample_now (mk_manager sample_pair None) =
      (Returns b, m1) /\
    update_from_export_data "pw" data (noon 9) m1 = (Returns b', m1).
Proof.
  intros remote data. split; [done |]. split; [apply sample_entries_parse |].
  split; [apply sample_entries_live |].
  apply (update_from_export_data_twice "pw" data sample_now (noon 9) remote
           (mk_manager sample_pair None) eq_refl sample_entries_parse
           sample_entries_live).
Defined.

Lemma update_from_export_data_false_only_when_empty_witness :
  let remote := [live_entry "a.com" "2015-01-05T12:00:00";
                 live_entry "c.com" "2015-01-03T12:00:00"] in
  let data := sample_blob "pw" remote in
  decode_blob "pw" data = Returns (JArray remote) /\
  all_parse remote /\
  exists b m',
    update_from_export_data "pw" data sample_now (mk_manager sample_pair None) =
      (Returns b, m') /\
    (b = false -> settings m' = []).
Proof.
  intros remote data. split; [done |]. split; [apply sample_entries_parse |].
  apply (update_from_export_data_false_only_when_empty "pw" data sample_now remote
           (mk_manager sample_pair None) eq_refl sample_entries_parse).
Defined.

Lemma update_from_export_data_keeps_unmentioned_witness :
  let remote := [live_entry "a.com" "2015-01-05T12:00:00";
                 live_entry "c.com" "2015-01-03T12:00:00"] in
  let data := sample_blob "pw" remote in
  let s := mk_setting "b.com" (noon 2) true [] in
  decode_blob "pw" data = Returns (JArray remote) /\
  all_parse remote /\
  s ∈ sample_pair /\
  (forall d, d ∈ remote -> domain d <> get_domain s) /\
  exists m',
    update_from_export_data "pw" data sample_now (mk_manager sample_pair None) =
      (Returns true, m') /\
    s ∈ settings m'.
Proof.
  intros remote data s.
  assert (s ∈ sample_pair) as Hs
    by (apply list_elem_of_further, list_elem_of_here).
  assert (forall d, d ∈ remote -> domain d <> get_domain s) as Hno.
  { intros d [-> | [-> | []%elem_of_nil]%elem_of_cons]%elem_of_cons; done. }
  split; [done |]. split; [apply sample_entries_parse |].
  split; [done |]. split; [done |].
  apply (update_from_export_data_keeps_unmentioned "pw" data sample_now remote
           (mk_manager sample_pair None) s eq_refl sample_entries_parse Hs Hno).
Defined.


Lemma get_export_data_raises_after_local_delete_witness :
  let l := [sample_setting "b.com" 1] in
  let entries := [live_entry "b.com" "2015-01-01T12:00:00";
                  live_entry "a.com" "2015-01-05T12:00:00"] in
  all_live entries /\
  (exists d, d ∈ entries /\ domain d ∉ (get_domain <$> l)) /\
  get_export_data "pw" sample_now (mk_manager l (Some (JArray entries))) =
    (Raises TypeError, mk_manager l (Some (JArray entries))).
Proof.
  intros l entries.
  assert (all_live entries) as Hlive by (repeat constructor).
  assert (exists d, d ∈ entries /\ domain d ∉ (get_domain <$> l)) as Habs.
  { exists (live_entry "a.com" "2015-01-05T12:00:00").
    split; [apply list_elem_of_further, list_elem_of_here |].
    by intros ?%list_elem_of_singleton. }
  do 2 (split; [done |]).
  apply (get_export_data_raises_after_local_delete "pw" sample_now l entries
           Hlive Habs).
Defined.

Lemma unknown_domain_is_inserted_witness :
  let data_set := tombstone "a.com" "2015-01-05T12:00:00" in
  let l := [sample_setting "b.com" 1] in
  has_domain (domain data_set) l = false /\
  strptime (mDate data_set) = Some (noon 5) /\
  update_entry sample_now data_set false (mk_manager l None) =
    (Returns false, mk_manager (l ++ [inserted sample_now data_set (noon 5)]) None).
Proof.
  intros data_set l. do 2 (split; [done |]).
  apply (unknown_domain_is_inserted sample_now data_set (noon 5) false l None
           eq_refl eq_refl).
Defined.

Lemma load_entry_newer_wins_witness :
  let data_set := tombstone "a.com" "2015-01-05T12:00:00" in
  let L := sample_setting "a.com" 1 in
  let R := mk_setting (domain data_set) (noon 5)
             (existsb (String.eqb (domain data_set)) ["a.com"]) (others data_set) in
  one_per_domain sample_pair /\ L ∈ sample_pair /\
  get_domain L = domain data_set /\
  strptime (mDate data_set) = Some (noon 5) /\
  gt (noon 5) (get_m_date L) = true /\
  exists l',
    load_entry sample_now ["a.com"] data_set (mk_manager sample_pair None) =
      (Returns tt, mk_manager l' None) /\
    length l' = length sample_pair /\ R ∈ l' /\
    forall s, s ∈ l' -> get_domain s = domain data_set -> s = R.
Proof.
  intros data_set L R.
  assert (L ∈ sample_pair) as HL by apply list_elem_of_here.
  split; [apply sample_pair_is_one_per_domain |]. do 4 (split; [done |]).
  apply (load_entry_newer_wins sample_now ["a.com"] data_set (noon 5) sample_pair
           None L sample_pair_is_one_per_domain HL eq_refl eq_refl eq_refl).
Defined.

Lemma update_from_export_data_removes_only_by_tombstone_witness :
  let remote := [live_entry "a.com" "2015-01-05T12:00:00";
                 tombstone "b.com" "2015-01-09T12:00:00"] in
  let data := sample_blob "pw" remote in
  decode_blob "pw" data = Returns (JArray remote) /\
  all_parse remote /\
  has_domain "a.com" sample_pair = true /\
  (forall d, d ∈ remote -> domain d = "a.com" -> is_deleted d = false) /\
  exists b m',
    update_from_export_data "pw" data sample_now (mk_manager sample_pair None) =
      (Returns b, m') /\
    has_domain "a.com" (settings m') = true.
Proof.
  intros remote data.
  assert (all_parse remote) as Hp by (repeat constructor; by eexists).
  assert (forall d, d ∈ remote -> domain d = "a.com" -> is_deleted d = false) as Hl.
  { intros d [-> | [-> | []%elem_of_nil]%elem_of_cons]%elem_of_cons; done. }
  do 4 (split; [done |]).
  apply (update_from_export_data_removes_only_by_tombstone "pw" data sample_now
           remote (mk_manager sample_pair None) "a.com" eq_refl Hp eq_refl Hl).
Defined.

Lemma update_from_export_data_marks_what_it_wrote_witness :
  let remote := [live_entry "a.com" "2015-01-05T12:00:00";
                 tombstone "b.com" "2015-01-09T12:00:00"] in
  let data := sample_blob "pw" remote in
  decode_blob "pw" data = Returns (JArray remote) /\
  all_parse remote /\
  exists b m',
    update_from_export_data "pw" data sample_now (mk_manager sample_pair None) =
      (Returns b, m') /\
    forall s, s ∈ settings m' -> s ∈ sample_pair \/ is_synced s = true.
Proof.
  intros remote data.
  assert (all_parse remote) as Hp by (repeat constructor; by eexists).
  do 2 (split; [done |]).
  apply (update_from_export_data_marks_what_it_wrote "pw" data sample_now remote
           (mk_manager sample_pair None) eq_refl Hp).
Defined.
